(** * youtube-music: plugin utilities, default configuration and native menu

    A shallow embedding of
    - [src/plugins/utils.ts]  (existence check, CSS injection, plugin names),
    - the default configuration table ([config/defaults]),
    - the native menu builder ([menu.ts]),
    followed by the properties established about them.

    Conventions.  Ambient JavaScript state is made explicit: the runtime
    platform ([process.platform]), the module-level maps of the CSS helper,
    the configuration store and the file system are arguments of the
    functions that read them, and functions that mutate them return the new
    state.  Closures stored in menu items are defunctionalised: one
    constructor per closure of the source, interpreted by [run_click]. *)

From Stdlib Require Import Ascii NArith.
From stdpp Require Import gmap strings list fin_maps.

Local Open Scope string_scope.
Local Open Scope list_scope.

Set Warnings "-register-all".

(* ===================================================================== *)
(** ** JavaScript values and containers *)
(* ===================================================================== *)

Module Js.

(** The JavaScript values that flow through the modelled code. *)
Inductive JsVal :=
| JsUndefined
| JsNull
| JsBool (b : bool)
| JsNum (n : Z)
| JsStr (s : string)
| JsStrArray (l : list string).

(** ToBoolean.  Arrays are objects, hence truthy. *)
Definition truthy (v : JsVal) : bool :=
  match v with
  | JsUndefined | JsNull => false
  | JsBool b => b
  | JsNum n => negb (n =? 0)%Z
  | JsStr s => negb (s =? "")
  | JsStrArray _ => true
  end.

(** [!v] *)
Definition js_not (v : JsVal) : JsVal := JsBool (negb (truthy v)).

(** [a && b]: the left operand when it is falsy, else the right one. *)
Definition js_and (a b : JsVal) : JsVal := if truthy a then b else a.

(** [a === b] on the values above (arrays compare by identity, which the
    model does not track: two array values are never [===] here). *)
Definition strict_eq (a b : JsVal) : bool :=
  match a, b with
  | JsUndefined, JsUndefined | JsNull, JsNull => true
  | JsBool x, JsBool y => Bool.eqb x y
  | JsNum x, JsNum y => (x =? y)%Z
  | JsStr x, JsStr y => x =? y
  | _, _ => false
  end.

(** [typeof v === 'string'] *)
Definition is_string (v : JsVal) : bool :=
  match v with JsStr _ => true | _ => false end.

(** *** Insertion-ordered [Map<string, V>]

    A JavaScript [Map] iterates in insertion order; [set] on a key that is
    present replaces the value and keeps the key's position, [set] on a new
    key appends. *)
Abbreviation JsMap V := (list (string * V)).

Fixpoint map_set {V} (k : string) (v : V) (m : JsMap V) : JsMap V :=
  match m with
  | [] => [(k, v)]
  | (k', v') :: rest =>
      if k' =? k then (k, v) :: rest else (k', v') :: map_set k v rest
  end.

Fixpoint map_get {V} (k : string) (m : JsMap V) : option V :=
  match m with
  | [] => None
  | (k', v') :: rest => if k' =? k then Some v' else map_get k rest
  end.

Definition map_size {V} (m : JsMap V) : nat := length m.

Definition map_keys {V} (m : JsMap V) : list string := m.*1.

(** *** Plain objects and [Object.keys]

    An object is the list of its own enumerable string-keyed properties in
    creation order.  [Object.keys] lists array-index keys first, in
    ascending numeric order, then the remaining keys in creation order. *)
Abbreviation JsObject V := (list (string * V)).

Definition is_digit (c : ascii) : bool :=
  let n := Ascii.N_of_ascii c in ((48 <=? n) && (n <=? 57))%N.

Fixpoint digits_value (s : string) (acc : N) : option N :=
  match s with
  | EmptyString => Some acc
  | String c rest =>
      if is_digit c
      then digits_value rest (acc * 10 + (Ascii.N_of_ascii c - 48))%N
      else None
  end.

(** A canonical numeric string denoting an integer in [0, 2^32 - 2]. *)
Definition array_index (s : string) : option N :=
  match s with
  | EmptyString => None
  | String c rest =>
      if (Ascii.eqb c "0"%char) && negb (rest =? "") then None
      else match digits_value s 0 with
           | Some n => if (n <? 2 ^ 32 - 1)%N then Some n else None
           | None => None
           end
  end.

Fixpoint insert_by_index (x : N * string) (l : list (N * string))
  : list (N * string) :=
  match l with
  | [] => [x]
  | y :: rest =>
      if (x.1 <=? y.1)%N then x :: l else y :: insert_by_index x rest
  end.

Definition sort_by_index (l : list (N * string)) : list (N * string) :=
  foldr insert_by_index [] l.

Definition index_keys (ks : list string) : list (N * string) :=
  omap (fun k => match array_index k with
                 | Some n => Some (n, k)
                 | None => None
                 end) ks.

Definition is_plain_key (k : string) : bool :=
  match array_index k with Some _ => false | None => true end.

Definition object_keys {V} (o : JsObject V) : list string :=
  (sort_by_index (index_keys o.*1)).*2 ++ List.filter is_plain_key o.*1.

End Js.
Import Js.

(* ===================================================================== *)
(** ** Runtime platform ([process.platform], [electron-is]) *)
(* ===================================================================== *)

Module Is.

(** The platform is the string held by [process.platform]. *)
Definition Platform := string.

Definition windows (p : Platform) : bool := p =? "win32".
Definition macOS (p : Platform) : bool := p =? "darwin".
Definition linux (p : Platform) : bool := p =? "linux".

End Is.

(* ===================================================================== *)
(** ** Default configuration table ([config/defaults]) *)
(* ===================================================================== *)

Module Defaults.

Record DefaultConfig := {
  window_size : JsObject JsVal;
  url : string;
  options : JsObject JsVal;
  plugins : JsObject (JsObject JsVal);
}.

Definition defaultConfig : DefaultConfig := {|
  window_size := [("width", JsNum 1100); ("height", JsNum 550)];
  url := "https://music.youtube.com";
  options := [
    ("tray", JsBool false);
    ("appVisible", JsBool true);
    ("autoUpdates", JsBool true);
    ("hideMenu", JsBool false);
    ("startAtLogin", JsBool false);
    ("disableHardwareAcceleration", JsBool false);
    ("restartOnConfigChanges", JsBool false);
    ("trayClickPlayPause", JsBool false);
    ("autoResetAppCache", JsBool false)
  ];
  plugins := [
    ("navigation", [("enabled", JsBool true)]);
    ("shortcuts", [("enabled", JsBool true)]);
    ("adblocker",
      [("enabled", JsBool true);
       ("cache", JsBool true);
       ("additionalBlockLists", JsStrArray [])]);
    ("downloader",
      [("enabled", JsBool false);
       ("ffmpegArgs", JsStrArray []);
       ("downloadFolder", JsUndefined)])
  ];
|}.

End Defaults.

(* ===================================================================== *)
(** ** [src/plugins/utils.ts] *)
(* ===================================================================== *)

Module Utils.

(** Callbacks are opaque [() => void] functions; the model tracks which
    one is invoked, by an identifier. *)
Definition Callback := nat.

(** A browser-content target ([Electron.WebContents]), by identity. *)
Definition WebContents := nat.

(** The file system as the helpers see it: for a path the [fs] functions
    accept, [access fs p] is the error [fs.access(p, F_OK, ...)] hands to
    its callback ([None] when there is none), and [read fs p] the text
    [fs.readFileSync(p, 'utf8')] returns ([None] when it throws). *)
Record FileSystem := {
  access : string -> option string;
  read : string -> option string;
}.

(** How a call ends: it returns (no value), or an exception leaves it. *)
Inductive Completion :=
| Returns
| Throws (error : string).

(** [fs.access] validates its path before anything else: a string path
    holding a NUL byte makes it throw at once, and its callback is never
    called.  (Paths are strings here; the [Buffer] and [URL] forms of
    [fs.PathLike] are not modelled.) *)
Fixpoint has_nul_byte (path : string) : bool :=
  match path with
  | EmptyString => false
  | String c rest => Ascii.eqb c "000"%char || has_nul_byte rest
  end.

(** *** [fileExists]

    The helper returns nothing; its effect is the sequence of callbacks
    invoked when [fs.access] reports back.  It catches nothing: when
    [fs.access] throws, the exception leaves [fileExists] and no callback
    runs. *)
Definition fileExists (fs : FileSystem) (path : string)
    (callbackIfExists : Callback) (callbackIfError : option Callback)
  : Completion * list Callback :=
  if has_nul_byte path then (Throws "ERR_INVALID_ARG_VALUE", [])
  else
    match access fs path with
    | Some error =>
        match callbackIfError with
        | Some cb => (Returns, [cb])
        | None => (Returns, [])
        end
    | None => (Returns, [callbackIfExists])
    end.

(** *** [getAvailablePluginNames] *)
Definition name_filter (platform : Is.Platform) (name : string) : bool :=
  if Is.windows platform && (name =? "touchbar") then false
  else if Is.macOS platform && (name =? "taskbar-mediacontrol") then false
  else if Is.linux platform
          && ((name =? "taskbar-mediacontrol") || (name =? "touchbar"))
  then false
  else true.

Definition getAvailablePluginNames (platform : Is.Platform)
    (defaultConfig : Defaults.DefaultConfig) : list string :=
  List.filter (name_filter platform)
    (object_keys (Defaults.plugins defaultConfig)).

(** *** CSS injection

    The two module-level maps and the ['did-finish-load'] listeners that
    [setupCssInjection] has attached so far (oldest first).  A listener is
    recorded by the target it is attached to, which is also the
    [webContents] its closure captures. *)
Record CssState := {
  cssToInject : JsMap (option Callback);
  cssToInjectFile : JsMap (option Callback);
  listeners : list WebContents;
}.

(** The state when the module has just been loaded. *)
Definition initial : CssState :=
  {| cssToInject := []; cssToInjectFile := []; listeners := [] |}.

Definition setupCssInjection (webContents : WebContents) (s : CssState)
  : CssState :=
  {| cssToInject := cssToInject s;
     cssToInjectFile := cssToInjectFile s;
     listeners := listeners s ++ [webContents] |}.

Definition nothing_pending (s : CssState) : bool :=
  (map_size (cssToInject s) =? 0)%nat
  && (map_size (cssToInjectFile s) =? 0)%nat.

Definition injectCSS (webContents : WebContents) (css : string)
    (cb : option Callback) (s : CssState) : CssState :=
  let s := if nothing_pending s then setupCssInjection webContents s
           else s in
  {| cssToInject := map_set css cb (cssToInject s);
     cssToInjectFile := cssToInjectFile s;
     listeners := listeners s |}.

Definition injectCSSAsFile (webContents : WebContents) (filepath : string)
    (cb : option Callback) (s : CssState) : CssState :=
  let s := if nothing_pending s then setupCssInjection webContents s
           else s in
  {| cssToInject := cssToInject s;
     cssToInjectFile := map_set filepath cb (cssToInjectFile s);
     listeners := listeners s |}.

(** Where a pending entry comes from: a key of [cssToInject] or a key of
    [cssToInjectFile]. *)
Inductive Source :=
| Inline (css : string)
| FromFile (filepath : string).

#[global] Instance Source_eq_dec : EqDecision Source.
Proof. solve_decision. Defined.

(** One run of an [async] callback passed to [forEach].  Either
    [webContents.insertCSS(text)] is called and [callback] is the
    continuation that runs once the returned promise resolves, or
    [readFileSync] threw before [insertCSS] was reached and the run ends
    as a rejected promise. *)
Inductive Task :=
| Applied (webContents : WebContents) (source : Source) (text : string)
          (callback : option Callback)
| ReadFailed (webContents : WebContents) (source : Source).

Definition task_source (t : Task) : Source :=
  match t with
  | Applied _ src _ _ => src
  | ReadFailed _ src => src
  end.

(** The [insertCSS] calls a list of tasks makes, in call order. *)
Definition insert_css_calls (ts : list Task) : list (WebContents * string) :=
  omap (fun t => match t with
                 | Applied wc _ text _ => Some (wc, text)
                 | ReadFailed _ _ => None
                 end) ts.

(** The completion callbacks a list of tasks invokes once every
    [insertCSS] promise has resolved (their relative order is up to the
    host). *)
Definition completion_callbacks (ts : list Task) : list Callback :=
  omap (fun t => match t with
                 | Applied _ _ _ (Some cb) => Some cb
                 | _ => None
                 end) ts.

Definition inject_inline (webContents : WebContents)
    (entry : string * option Callback) : Task :=
  let '(css, callback) := entry in
  Applied webContents (Inline css) css callback.

Definition inject_file (fs : FileSystem) (webContents : WebContents)
    (entry : string * option Callback) : Task :=
  let '(filepath, callback) := entry in
  match read fs filepath with
  | Some text => Applied webContents (FromFile filepath) text callback
  | None => ReadFailed webContents (FromFile filepath)
  end.

(** The listener body of [setupCssInjection]: both [forEach] loops, each
    starting one task per entry, synchronously and in map order. *)
Definition on_did_finish_load (fs : FileSystem) (webContents : WebContents)
    (s : CssState) : list Task :=
  (inject_inline webContents <$> cssToInject s)
  ++ (inject_file fs webContents <$> cssToInjectFile s).

(** A load-completion event on [target] runs, in attachment order, every
    listener attached to [target]. *)
Definition did_finish_load (fs : FileSystem) (target : WebContents)
    (s : CssState) : list Task :=
  mbind (fun wc => on_did_finish_load fs wc s)
        (List.filter (Nat.eqb target) (listeners s)).

(** *** Histories *)
Inductive Registration :=
| RegInline (webContents : WebContents) (css : string)
            (cb : option Callback)
| RegFile (webContents : WebContents) (filepath : string)
          (cb : option Callback).

Definition reg_target (r : Registration) : WebContents :=
  match r with RegInline wc _ _ | RegFile wc _ _ => wc end.

Definition reg_source (r : Registration) : Source :=
  match r with
  | RegInline _ css _ => Inline css
  | RegFile _ filepath _ => FromFile filepath
  end.

Definition reg_callback (r : Registration) : option Callback :=
  match r with RegInline _ _ cb | RegFile _ _ cb => cb end.

Definition register (r : Registration) (s : CssState) : CssState :=
  match r with
  | RegInline wc css cb => injectCSS wc css cb s
  | RegFile wc filepath cb => injectCSSAsFile wc filepath cb s
  end.

(** Registrations performed one after the other, head first. *)
Definition register_all (rs : list Registration) (s : CssState) : CssState :=
  foldl (fun acc r => register r acc) s rs.

(** The entries a history hands to [cssToInject.set] and to
    [cssToInjectFile.set], in call order. *)
Definition inline_entries (rs : list Registration)
  : list (string * option Callback) :=
  omap (fun r => match r with
                 | RegInline _ css cb => Some (css, cb)
                 | RegFile _ _ _ => None
                 end) rs.

Definition file_entries (rs : list Registration)
  : list (string * option Callback) :=
  omap (fun r => match r with
                 | RegInline _ _ _ => None
                 | RegFile _ filepath cb => Some (filepath, cb)
                 end) rs.

(** One [set] call, on an entry. *)
Definition set_entry (m : JsMap (option Callback))
    (e : string * option Callback) : JsMap (option Callback) :=
  map_set e.1 e.2 m.

(** The distinct elements of a list, each at the place of its first
    occurrence. *)
Fixpoint first_occurrences (l : list string) : list string :=
  match l with
  | [] => []
  | x :: rest => x :: filter (fun y => y <> x) (first_occurrences rest)
  end.

Inductive Event :=
| Register (r : Registration)
| DidFinishLoad (target : WebContents).

(** One event: the new state and the tasks the event starts. *)
Definition step (fs : FileSystem) (e : Event) (s : CssState)
  : CssState * list Task :=
  match e with
  | Register r => (register r s, [])
  | DidFinishLoad target => (s, did_finish_load fs target s)
  end.

(** A sequence of events: the final state and all tasks started, in
    order. *)
Fixpoint run (fs : FileSystem) (es : list Event) (s : CssState)
  : CssState * list Task :=
  match es with
  | [] => (s, [])
  | e :: rest =>
      let '(s1, ts1) := step fs e s in
      let '(s2, ts2) := run fs rest s1 in
      (s2, ts1 ++ ts2)
  end.

(** The callback stored for a pending entry ([Map.get] on the entry's
    map); [None] when the entry is not pending. *)
Definition pending_callback (src : Source) (s : CssState)
  : option (option Callback) :=
  match src with
  | Inline css => map_get css (cssToInject s)
  | FromFile filepath => map_get filepath (cssToInjectFile s)
  end.

(** The task one [forEach] iteration starts for an entry. *)
Definition start_task (fs : FileSystem) (webContents : WebContents)
    (src : Source) (callback : option Callback) : Task :=
  match src with
  | Inline css => inject_inline webContents (css, callback)
  | FromFile filepath => inject_file fs webContents (filepath, callback)
  end.

End Utils.

Import Utils.

(* ===================================================================== *)
(** ** Config Store ([./config]) *)
(* ===================================================================== *)

Module Config.

(** Modelled from the spec: the Config Store module [./config] is not
    among the sources.  The store holds the persisted values by dotted
    path and counts the restart signals it has raised. *)
Record Store := {
  values : gmap string JsVal;
  restarts : nat;
}.

(** Modelled from the spec: the Default Configuration Table addressed by
    dotted path, the fallback of [get]. *)
Definition default_table (d : Defaults.DefaultConfig) : gmap string JsVal :=
  list_to_map
    ((prod_map (String.append "window-size.") id <$> Defaults.window_size d)
     ++ [("url", JsStr (Defaults.url d))]
     ++ (prod_map (String.append "options.") id <$> Defaults.options d)
     ++ (mbind (fun '(name, entry) =>
                  prod_map (String.append ("plugins." +:+ name +:+ ".")) id
                    <$> entry)
               (Defaults.plugins d))).

(** Modelled from the spec: the store as first created, nothing persisted
    yet. *)
Definition fresh : Store := {| values := ∅; restarts := 0 |}.

(** Modelled from the spec: [get(path)] returns the stored value at a
    dotted path, falling back to the Default Configuration Table.  A path
    absent from both reads as [undefined]. *)
Definition get (path : string) (st : Store) : JsVal :=
  match values st !! path with
  | Some v => v
  | None => default JsUndefined
              (default_table Defaults.defaultConfig !! path)
  end.

(** Modelled from the spec: [set(path, value)] persists the value at once
    and, when the restart-on-config-change flag is set and the path is not
    exempt, raises the restart signal.  The signal is an external
    collaborator; the store records that it was raised. *)
Definition set (exempt : string -> bool) (path : string) (value : JsVal)
    (st : Store) : Store :=
  let st' := {| values := <[path := value]> (values st);
                restarts := restarts st |} in
  if truthy (get "options.restartOnConfigChanges" st') && negb (exempt path)
  then {| values := values st'; restarts := S (restarts st') |}
  else st'.

(** Modelled from the spec: [setMenuOption(path, value)], the [set]
    variant the menu's toggles call. *)
Definition setMenuOption (exempt : string -> bool) (path : string)
    (value : JsVal) (st : Store) : Store :=
  set exempt path value st.

(** Modelled from the spec: the plugin-scoped conveniences over the
    [plugins.<name>] subtree. *)
Definition plugin_path (plugin option_name : string) : string :=
  "plugins." +:+ plugin +:+ "." +:+ option_name.

(** Modelled from the spec: [plugins.isEnabled(name)]. *)
Definition isEnabled (plugin : string) (st : Store) : bool :=
  truthy (get (plugin_path plugin "enabled") st).

(** Modelled from the spec: [plugins.enable(name)]. *)
Definition enable (exempt : string -> bool) (plugin : string) (st : Store)
  : Store :=
  set exempt (plugin_path plugin "enabled") (JsBool true) st.

(** Modelled from the spec: [plugins.disable(name)]. *)
Definition disable (exempt : string -> bool) (plugin : string) (st : Store)
  : Store :=
  set exempt (plugin_path plugin "enabled") (JsBool false) st.

(** Modelled from the spec: [plugins.getOptions(name)], the plugin's
    options mapping, read by option name. *)
Definition getOptions (plugin : string) (st : Store) : string -> JsVal :=
  fun option_name => get (plugin_path plugin option_name) st.

End Config.

(* ===================================================================== *)
(** ** Native menu ([menu.ts]) *)
(* ===================================================================== *)

Module Menu.

Inductive ItemType := Checkbox | Radio | Separator.

(** The closures the menu stores as [click] handlers, one constructor per
    closure of the source, with the variables it captures. *)
Inductive Handler :=
| TogglePlugin (plugin : string) (hasSubmenu : bool) (refreshMenu : bool)
| SetMenuOptionToChecked (path : string)
| SetOption (path : string) (value : JsVal)
| ImportCustomCss
| SingleInstanceLock
| AlwaysOnTop
| HideMenu
| SetTray (tray appVisible : bool)
| SetProxy
| ToggleDevTools
| EditConfig
| GoBack
| GoForward
| CopyCurrentUrl
| RestartApp.

(** [Electron.MenuItemConstructorOptions], with the fields the menu sets;
    a field left out of an object literal is [None]. *)
Inductive MenuItem := mkItem {
  label : option string;
  type : option ItemType;
  role : option string;
  checked : option JsVal;
  click : option Handler;
  submenu : option (list MenuItem);
}.

Definition MenuTemplate := list MenuItem.

(** The object-literal shapes the source uses. *)
Definition separator_item : MenuItem :=
  mkItem None (Some Separator) None None None None.

Definition role_item (r : string) : MenuItem :=
  mkItem None None (Some r) None None None.

Definition checkbox_item (l : string) (c : JsVal) (h : Handler) : MenuItem :=
  mkItem (Some l) (Some Checkbox) None (Some c) (Some h) None.

Definition radio_item (l : string) (c : JsVal) (h : Handler) : MenuItem :=
  mkItem (Some l) (Some Radio) None (Some c) (Some h) None.

Definition action_item (l : string) (h : Handler) : MenuItem :=
  mkItem (Some l) None None None (Some h) None.

Definition submenu_item (l : string) (items : list MenuItem) : MenuItem :=
  mkItem (Some l) None None None None (Some items).

(** What the menu builder reads from its surroundings: the platform, the
    plugin list of [getAllPlugins()], the plugins' [menu.js] modules
    ([None] when [existsSync] finds no file, else the module's default
    export applied to the window and the refresh callback), the keys of
    [startingPages], the application name and the store's restart
    exemptions. *)
Record Env := {
  platform : Is.Platform;
  all_plugins : list string;
  menu_module : string -> option ((string -> JsVal) -> list MenuItem);
  starting_pages : list string;
  app_name : string;
  restart_exempt : string -> bool;
}.

Definition betaPlugins : list string := ["crossfade"; "lumiastream"].

Definition includes (l : list string) (x : string) : bool :=
  existsb (String.eqb x) l.

(** [pluginEnabledMenu]; the defaults of the optional parameters are
    [label = ''], [hasSubmenu = false], [refreshMenu = undefined]. *)
Definition pluginEnabledMenu (st : Config.Store) (plugin : string)
    (label : string) (hasSubmenu : bool) (refreshMenu : bool) : MenuItem :=
  checkbox_item (if truthy (JsStr label) then label else plugin)
                (JsBool (Config.isEnabled plugin st))
                (TogglePlugin plugin hasSubmenu refreshMenu).

(** The label of a plugin's entry: beta plugins are marked. *)
Definition pluginLabel (plugin : string) : string :=
  if includes betaPlugins plugin then plugin +:+ " [beta]" else plugin.

(** One entry of the Plugins submenu: the body of the [map] callback. *)
Definition plugin_entry (env : Env) (st : Config.Store) (plugin : string)
  : MenuItem :=
  let pluginLabel := pluginLabel plugin in
  match menu_module env plugin with
  | Some getPluginMenu =>
      if negb (Config.isEnabled plugin st)
      then pluginEnabledMenu st plugin pluginLabel true true
      else submenu_item pluginLabel
             (pluginEnabledMenu st plugin "Enabled" true true
              :: separator_item
              :: getPluginMenu (Config.getOptions plugin st))
  | None => pluginEnabledMenu st plugin pluginLabel false false
  end.

Definition plugins_menu (env : Env) (st : Config.Store) : MenuItem :=
  submenu_item "Plugins" (plugin_entry env st <$> all_plugins env).

Definition visual_tweaks_menu (st : Config.Store) : MenuItem :=
  submenu_item "Visual Tweaks" [
    checkbox_item "Remove upgrade button"
      (Config.get "options.removeUpgradeButton" st)
      (SetMenuOptionToChecked "options.removeUpgradeButton");
    submenu_item "Like buttons" [
      radio_item "Default"
        (js_not (Config.get "options.likeButtons" st))
        (SetOption "options.likeButtons" (JsStr ""));
      radio_item "Force show"
        (JsBool (strict_eq (Config.get "options.likeButtons" st)
                           (JsStr "force")))
        (SetOption "options.likeButtons" (JsStr "force"));
      radio_item "Hide"
        (JsBool (strict_eq (Config.get "options.likeButtons" st)
                           (JsStr "hide")))
        (SetOption "options.likeButtons" (JsStr "hide"))
    ];
    submenu_item "Theme" [
      radio_item "No theme"
        (js_not (Config.get "options.themes" st))
        (SetOption "options.themes" (JsStrArray []));
      separator_item;
      radio_item "Import custom CSS file" (JsBool false) ImportCustomCss
    ]
  ].

(** The three radio items of the Tray submenu. *)
Definition tray_disabled (st : Config.Store) : MenuItem :=
  radio_item "Disabled"
    (js_not (Config.get "options.tray" st))
    (SetTray false true).

Definition tray_enabled_visible (st : Config.Store) : MenuItem :=
  radio_item "Enabled + app visible"
    (js_and (Config.get "options.tray" st)
            (Config.get "options.appVisible" st))
    (SetTray true true).

Definition tray_enabled_hidden (st : Config.Store) : MenuItem :=
  radio_item "Enabled + app hidden"
    (js_and (Config.get "options.tray" st)
            (js_not (Config.get "options.appVisible" st)))
    (SetTray true false).

Definition tray_radio_group (st : Config.Store) : list MenuItem :=
  [tray_disabled st; tray_enabled_visible st; tray_enabled_hidden st].

Definition tray_menu (st : Config.Store) : MenuItem :=
  submenu_item "Tray"
    (tray_radio_group st ++ [
       separator_item;
       checkbox_item "Play/Pause on click"
         (Config.get "options.trayClickPlayPause" st)
         (SetMenuOptionToChecked "options.trayClickPlayPause")
     ]).

Definition dev_tools_item (env : Env) : MenuItem :=
  if Is.macOS (platform env)
  then action_item "Toggle DevTools" ToggleDevTools
  else role_item "toggleDevTools".

Definition advanced_options_menu (env : Env) (st : Config.Store)
  : MenuItem :=
  submenu_item "Advanced options" [
    checkbox_item "Proxy"
      (js_not (js_not (Config.get "options.proxy" st))) SetProxy;
    checkbox_item "Override useragent"
      (Config.get "options.overrideUserAgent" st)
      (SetMenuOptionToChecked "options.overrideUserAgent");
    checkbox_item "Disable hardware acceleration"
      (Config.get "options.disableHardwareAcceleration" st)
      (SetMenuOptionToChecked "options.disableHardwareAcceleration");
    checkbox_item "Restart on config changes"
      (Config.get "options.restartOnConfigChanges" st)
      (SetMenuOptionToChecked "options.restartOnConfigChanges");
    checkbox_item "Reset App cache when app starts"
      (Config.get "options.autoResetAppCache" st)
      (SetMenuOptionToChecked "options.autoResetAppCache");
    separator_item;
    dev_tools_item env;
    action_item "Edit config.json" EditConfig
  ].

Definition hide_menu_items (env : Env) (st : Config.Store)
  : list MenuItem :=
  if Is.windows (platform env) || Is.linux (platform env)
  then [checkbox_item "Hide menu"
          (Config.get "options.hideMenu" st) HideMenu]
  else [].

Definition start_at_login_items (env : Env) (st : Config.Store)
  : list MenuItem :=
  if Is.windows (platform env) || Is.macOS (platform env)
  then [checkbox_item "Start at login"
          (Config.get "options.startAtLogin" st)
          (SetMenuOptionToChecked "options.startAtLogin")]
  else [].

Definition options_menu (env : Env) (st : Config.Store) : MenuItem :=
  submenu_item "Options"
    ([ checkbox_item "Auto-update"
         (Config.get "options.autoUpdates" st)
         (SetMenuOptionToChecked "options.autoUpdates");
       checkbox_item "Resume last song when app starts"
         (Config.get "options.resumeOnStart" st)
         (SetMenuOptionToChecked "options.resumeOnStart");
       submenu_item "Starting page"
         ((fun name =>
             radio_item name
               (JsBool (strict_eq (Config.get "options.startingPage" st)
                                  (JsStr name)))
               (SetOption "options.startingPage" (JsStr name)))
            <$> starting_pages env);
       visual_tweaks_menu st;
       checkbox_item "Single instance lock" (JsBool true)
         SingleInstanceLock;
       checkbox_item "Always on top"
         (Config.get "options.alwaysOnTop" st) AlwaysOnTop ]
     ++ hide_menu_items env st
     ++ start_at_login_items env st
     ++ [ tray_menu st;
          separator_item;
          advanced_options_menu env st ]).

Definition view_menu : MenuItem :=
  submenu_item "View" [
    role_item "reload";
    role_item "forceReload";
    separator_item;
    role_item "zoomIn";
    role_item "zoomOut";
    role_item "resetZoom";
    separator_item;
    role_item "togglefullscreen"
  ].

Definition navigation_menu : MenuItem :=
  submenu_item "Navigation" [
    action_item "Go back" GoBack;
    action_item "Go forward" GoForward;
    action_item "Copy current URL" CopyCurrentUrl;
    action_item "Restart App" RestartApp;
    role_item "quit"
  ].

Definition mainMenuTemplate (env : Env) (st : Config.Store) : MenuTemplate :=
  [ plugins_menu env st; options_menu env st; view_menu; navigation_menu ].

Definition app_menu (env : Env) : MenuItem :=
  submenu_item (app_name env) [
    role_item "about";
    separator_item;
    role_item "hide";
    role_item "hideOthers";
    role_item "unhide";
    separator_item;
    role_item "selectAll";
    role_item "cut";
    role_item "copy";
    role_item "paste";
    separator_item;
    role_item "minimize";
    role_item "close";
    role_item "quit"
  ].

(** [setApplicationMenu]: the template handed to
    [Menu.buildFromTemplate]. *)
Definition setApplicationMenu (env : Env) (st : Config.Store)
  : MenuTemplate :=
  let menuTemplate := mainMenuTemplate env st in
  if platform env =? "darwin"
  then app_menu env :: menuTemplate
  else menuTemplate.

(** *** Click handlers

    What a handler can touch: the configuration store, the host state the
    handlers query, and the other calls made into the host (oldest
    first). *)
Record World := {
  config : Config.Store;
  single_instance_lock : bool;
  always_on_top : bool;
  dev_tools_opened : bool;
  can_go_back : bool;
  can_go_forward : bool;
  host_calls : list string;
}.

Definition with_config (f : Config.Store -> Config.Store) (w : World)
  : World :=
  {| config := f (config w);
     single_instance_lock := single_instance_lock w;
     always_on_top := always_on_top w;
     dev_tools_opened := dev_tools_opened w;
     can_go_back := can_go_back w;
     can_go_forward := can_go_forward w;
     host_calls := host_calls w |}.

Definition call_host (name : string) (w : World) : World :=
  {| config := config w;
     single_instance_lock := single_instance_lock w;
     always_on_top := always_on_top w;
     dev_tools_opened := dev_tools_opened w;
     can_go_back := can_go_back w;
     can_go_forward := can_go_forward w;
     host_calls := host_calls w ++ [name] |}.

Definition with_single_instance_lock (b : bool) (w : World) : World :=
  {| config := config w;
     single_instance_lock := b;
     always_on_top := always_on_top w;
     dev_tools_opened := dev_tools_opened w;
     can_go_back := can_go_back w;
     can_go_forward := can_go_forward w;
     host_calls := host_calls w |}.

Definition with_always_on_top (b : bool) (w : World) : World :=
  {| config := config w;
     single_instance_lock := single_instance_lock w;
     always_on_top := b;
     dev_tools_opened := dev_tools_opened w;
     can_go_back := can_go_back w;
     can_go_forward := can_go_forward w;
     host_calls := host_calls w |}.

Definition with_dev_tools_opened (b : bool) (w : World) : World :=
  {| config := config w;
     single_instance_lock := single_instance_lock w;
     always_on_top := always_on_top w;
     dev_tools_opened := b;
     can_go_back := can_go_back w;
     can_go_forward := can_go_forward w;
     host_calls := host_calls w |}.

(** [refreshMenu]: rebuilds and installs the application menu. *)
Definition refresh_menu (w : World) : World := call_host "refreshMenu" w.

(** [setProxy]: [output] is what the prompt resolves to, [checked] is
    [item.checked] when the handler starts; the result carries
    [item.checked] when it ends. *)
Definition setProxy (env : Env) (output : JsVal) (checked : bool)
    (w : World) : bool * World :=
  if is_string output
  then (negb (strict_eq output (JsStr "")),
        with_config
          (Config.setMenuOption (restart_exempt env) "options.proxy" output)
          w)
  else (negb checked, w).

(** Runs a handler.  [reply] is what the modal the handler opens (if any)
    resolves to, [checked] is [item.checked] when the handler starts; the
    result carries [item.checked] when it ends. *)
Definition run_click (env : Env) (h : Handler) (reply : JsVal)
    (checked : bool) (w : World) : bool * World :=
  let exempt := restart_exempt env in
  match h with
  | TogglePlugin plugin hasSubmenu refreshMenu =>
      let w1 := if checked
                then with_config (Config.enable exempt plugin) w
                else with_config (Config.disable exempt plugin) w in
      (checked,
       if hasSubmenu
       then (if refreshMenu then refresh_menu w1 else w1)
       else w1)
  | SetMenuOptionToChecked path =>
      (checked,
       with_config (Config.setMenuOption exempt path (JsBool checked)) w)
  | SetOption path value =>
      (checked, with_config (Config.set exempt path value) w)
  | ImportCustomCss =>
      (checked,
       if truthy reply
       then with_config (Config.set exempt "options.themes" reply) w
       else w)
  | SingleInstanceLock =>
      (checked,
       if negb checked && single_instance_lock w
       then with_single_instance_lock false w
       else if checked && negb (single_instance_lock w)
            then with_single_instance_lock true w
            else w)
  | AlwaysOnTop =>
      (checked,
       with_always_on_top checked
         (with_config
            (Config.setMenuOption exempt "options.alwaysOnTop"
               (JsBool checked)) w))
  | HideMenu =>
      let w1 := with_config
                  (Config.setMenuOption exempt "options.hideMenu"
                     (JsBool checked)) w in
      (checked,
       if checked
          && negb (truthy (Config.get "options.hideMenuWarned" (config w1)))
       then call_host "dialog.showMessageBox" w1
       else w1)
  | SetTray tray appVisible =>
      (checked,
       with_config
         (Config.setMenuOption exempt "options.appVisible"
            (JsBool appVisible))
         (with_config
            (Config.setMenuOption exempt "options.tray" (JsBool tray)) w))
  | SetProxy => setProxy env reply checked w
  | ToggleDevTools =>
      (checked,
       if dev_tools_opened w
       then with_dev_tools_opened false w
       else with_dev_tools_opened true w)
  | EditConfig => (checked, call_host "config.edit" w)
  | GoBack =>
      (checked, if can_go_back w then call_host "goBack" w else w)
  | GoForward =>
      (checked, if can_go_forward w then call_host "goForward" w else w)
  | CopyCurrentUrl => (checked, call_host "clipboard.writeText" w)
  | RestartApp => (checked, call_host "restart" w)
  end.

(** A click on a checkbox item: the host flips [item.checked] and then
    calls the item's handler. *)
Definition click_checkbox (env : Env) (h : Handler) (reply : JsVal)
    (pre_click_checked : bool) (w : World) : bool * World :=
  run_click env h reply (negb pre_click_checked) w.

(** *** Reading a template *)
Definition children (it : MenuItem) : list MenuItem :=
  default [] (submenu it).

Definition has_label (l : string) (it : MenuItem) : bool :=
  match label it with Some l' => l' =? l | None => false end.

Definition has_role (r : string) (it : MenuItem) : bool :=
  match role it with Some r' => r' =? r | None => false end.

(** An item that toggles the developer tools through a click handler of
    its own rather than through a role. *)
Definition toggles_dev_tools_natively (it : MenuItem) : bool :=
  match click it, role it with
  | Some ToggleDevTools, None => true
  | _, _ => false
  end.

(** How many of the items are built with [checked] equal to [true]. *)
Definition is_checked (it : MenuItem) : bool :=
  match checked it with Some (JsBool true) => true | _ => false end.

Definition checked_count (items : list MenuItem) : nat :=
  length (List.filter is_checked items).

(** The items found under the top-level menus labelled [l]. *)
Definition items_under (l : string) (t : list MenuItem) : list MenuItem :=
  mbind children (List.filter (has_label l) t).

(** The item reached by a path of labels: at each level, the first item
    carrying the label. *)
Fixpoint find_item (path : list string) (items : list MenuItem)
  : option MenuItem :=
  match path with
  | [] => None
  | l :: rest =>
      match List.find (has_label l) items with
      | Some it =>
          match rest with
          | [] => Some it
          | _ :: _ => find_item rest (children it)
          end
      | None => None
      end
  end.

(** The items of the submenu reached by a path of labels. *)
Definition items_at (path : list string) (items : list MenuItem)
  : list MenuItem :=
  match find_item path items with
  | Some it => children it
  | None => []
  end.

(** Which items of a group are built checked. *)
Definition checked_flags (items : list MenuItem) : list bool :=
  is_checked <$> items.

(** [n] flags of which only the [k]-th is set. *)
Definition one_hot (n k : nat) : list bool :=
  (fun j => Nat.eqb j k) <$> seq 0 n.

End Menu.

(* ===================================================================== *)
(** ** Sample inputs *)
(* ===================================================================== *)

Module Samples.

(** A file system holding one stylesheet, [a.css]. *)
Definition one_stylesheet : FileSystem :=
  {| access := fun p => if p =? "a.css" then None else Some "ENOENT";
     read := fun p => if p =? "a.css" then Some "a{}" else None |}.

(** A path that holds a NUL byte: [style], NUL, [.css]. *)
Definition nul_path : string :=
  "style" +:+ String "000"%char ".css".

(** A default table that also declares the two platform-reserved
    plugins. *)
Definition table_with_reserved : Defaults.DefaultConfig :=
  {| Defaults.window_size := Defaults.window_size Defaults.defaultConfig;
     Defaults.url := Defaults.url Defaults.defaultConfig;
     Defaults.options := Defaults.options Defaults.defaultConfig;
     Defaults.plugins :=
       [ ("touchbar", [("enabled", JsBool false)]);
         ("navigation", [("enabled", JsBool true)]);
         ("taskbar-mediacontrol", [("enabled", JsBool false)]);
         ("shortcuts", [("enabled", JsBool true)]) ] |}.

(** The downloader's menu module contributes one item. *)
Definition downloader_menu (options : string -> JsVal)
  : list Menu.MenuItem :=
  [Menu.action_item "Choose download folder" Menu.EditConfig].

(** The plugins of the default table, of which the downloader ships a
    [menu.js]. *)
Definition linux_env : Menu.Env :=
  {| Menu.platform := "linux";
     Menu.all_plugins :=
       getAvailablePluginNames "linux" Defaults.defaultConfig;
     Menu.menu_module :=
       fun plugin => if plugin =? "downloader"
                     then Some downloader_menu else None;
     Menu.starting_pages := ["Default"; "Home"; "Explore"];
     Menu.app_name := "YouTube Music";
     Menu.restart_exempt := fun _ => false |}.

Definition initial_world : Menu.World :=
  {| Menu.config := Config.fresh;
     Menu.single_instance_lock := true;
     Menu.always_on_top := false;
     Menu.dev_tools_opened := false;
     Menu.can_go_back := false;
     Menu.can_go_forward := false;
     Menu.host_calls := [] |}.

End Samples.

(* ===================================================================== *)
(** * Properties *)
(* ===================================================================== *)

Import Menu.

(** ** Containers *)

Lemma filter_none {A} (P : A → Prop) `{∀ x, Decision (P x)} (l : list A) :
  (∀ x, x ∈ l → ¬ P x) → filter P l = [].
Proof.
  induction l as [|a l IH]; intros Hl; [done|].
  rewrite filter_cons, decide_False by (apply Hl; left).
  apply IH. intros x Hx. apply Hl. by right.
Qed.

Section JsMapFacts.
Context {V : Type}.
Implicit Types (m : JsMap V) (k : string) (v : V).

Lemma map_get_set_eq m k v : map_get k (map_set k v m) = Some v.
Proof.
  induction m as [|[k' v'] m IH]; simpl.
  - by rewrite String.eqb_refl.
  - destruct (k' =? k) eqn:E; simpl.
    + by rewrite String.eqb_refl.
    + by rewrite E.
Qed.

Lemma map_get_set_ne m k k' v :
  k ≠ k' → map_get k' (map_set k v m) = map_get k' m.
Proof.
  intros Hne. induction m as [|[k0 v0] m IH]; simpl.
  - by apply String.eqb_neq in Hne as ->.
  - destruct (k0 =? k) eqn:E; simpl.
    + apply String.eqb_eq in E as ->.
      by apply String.eqb_neq in Hne as ->.
    + by rewrite IH.
Qed.

Lemma map_keys_set m k v :
  map_keys (map_set k v m)
  = if bool_decide (k ∈ map_keys m) then map_keys m else map_keys m ++ [k].
Proof.
  unfold map_keys. induction m as [|[k' v'] m IH]; csimpl; [done|].
  destruct (k' =? k) eqn:E; csimpl.
  - apply String.eqb_eq in E as ->.
    rewrite bool_decide_eq_true_2; [done | by left].
  - apply String.eqb_neq in E. rewrite IH.
    destruct (bool_decide (k ∈ m.*1)) eqn:D.
    + apply bool_decide_eq_true in D.
      rewrite bool_decide_eq_true_2; [done | by right].
    + apply bool_decide_eq_false in D.
      rewrite bool_decide_eq_false_2; [done|].
      rewrite elem_of_cons. intros [?|?]; congruence.
Qed.

Lemma map_size_set_present m k v :
  k ∈ map_keys m → map_size (map_set k v m) = map_size m.
Proof.
  intros Hin. unfold map_size.
  pose proof (map_keys_set m k v) as Hk.
  rewrite bool_decide_eq_true_2 in Hk by done.
  apply (f_equal length) in Hk. unfold map_keys in Hk.
  by rewrite !length_fmap in Hk.
Qed.

Lemma map_size_set_pos m k v : map_size (map_set k v m) ≠ 0.
Proof.
  unfold map_size. destruct m as [|[k' v'] m]; csimpl; [done|].
  by destruct (k' =? k).
Qed.

Lemma map_set_NoDup m k v :
  NoDup (map_keys m) → NoDup (map_keys (map_set k v m)).
Proof.
  intros Hnd. rewrite map_keys_set. case_bool_decide; [done|].
  apply NoDup_app. split_and!; [done | | apply NoDup_singleton].
  intros x Hx ->%list_elem_of_singleton. done.
Qed.

(** In a map without repeated keys, the entries under a key are the one
    [map_get] finds. *)
Lemma filter_key_NoDup m k :
  NoDup (map_keys m) →
  filter (λ e, e.1 = k) m
  = match map_get k m with Some v => [(k, v)] | None => [] end.
Proof.
  unfold map_keys. induction m as [|[k' v'] m IH]; [done|].
  rewrite fmap_cons, filter_cons. cbn [fst map_get].
  intros [Hnotin Hnd]%NoDup_cons.
  destruct (k' =? k) eqn:E.
  - apply String.eqb_eq in E as ->. rewrite decide_True by done.
    f_equal. apply filter_none.
    intros [k1 v1] Hin Heq. cbn in Heq. subst k1.
    apply Hnotin. apply list_elem_of_fmap. by exists (k, v1).
  - apply String.eqb_neq in E. rewrite decide_False by done. by apply IH.
Qed.

End JsMapFacts.

Lemma object_keys_plain {V} (o : JsObject V) :
  Forall (λ k, array_index k = None) o.*1 → object_keys o = o.*1.
Proof.
  unfold object_keys. generalize (o.*1). intros ks Hplain.
  assert (index_keys ks = []) as ->.
  { unfold index_keys. induction Hplain as [|k ks Hk _ IH]; [done|].
    cbn. by rewrite Hk. }
  cbn. induction Hplain as [|k ks Hk _ IH]; [done|].
  cbn. unfold is_plain_key at 1. rewrite Hk. by f_equal.
Qed.

(** ** Plugin names *)

Lemma name_filter_reserved platform name :
  name_filter platform name
  = negb (((name =? "touchbar")
           && (Is.windows platform || Is.linux platform))
          || ((name =? "taskbar-mediacontrol")
              && (Is.macOS platform || Is.linux platform))).
Proof.
  unfold name_filter.
  destruct (Is.windows platform), (Is.macOS platform), (Is.linux platform),
    (name =? "touchbar"), (name =? "taskbar-mediacontrol"); reflexivity.
Qed.

(** C1.  Whatever the platform, the available plugin names are the keys of
    the default table's [plugins] object in declaration order, from which
    exactly 'touchbar' (on Windows and Linux) and 'taskbar-mediacontrol' (on
    macOS and Linux) are dropped: nothing else is removed, added or moved.
    The table's keys are plain names (none is an array index, which
    [Object.keys] would list first).  The result is a function of the
    platform and the table alone, so equal inputs give equal lists. *)
Theorem getAvailablePluginNames_declaration_order
    (platform : Is.Platform) (table : Defaults.DefaultConfig) :
  Forall (λ k, array_index k = None) (Defaults.plugins table).*1 →
  getAvailablePluginNames platform table
  = List.filter
      (λ name,
         negb (((name =? "touchbar")
                && (Is.windows platform || Is.linux platform))
               || ((name =? "taskbar-mediacontrol")
                   && (Is.macOS platform || Is.linux platform))))
      (Defaults.plugins table).*1
  ∧ (∀ platform' table',
       platform' = platform → table' = table →
       getAvailablePluginNames platform' table'
       = getAvailablePluginNames platform table).
Proof.
  intros Hplain. split.
  - unfold getAvailablePluginNames. rewrite object_keys_plain by done.
    apply List.filter_ext. intros name. apply name_filter_reserved.
  - by intros ?? -> ->.
Qed.

Lemma defaultConfig_plain_keys :
  Forall (λ k, array_index k = None)
         (Defaults.plugins Defaults.defaultConfig).*1.
Proof. repeat constructor. Qed.

Lemma getAvailablePluginNames_declaration_order_witness :
  getAvailablePluginNames "linux" Defaults.defaultConfig
  = ["navigation"; "shortcuts"; "adblocker"; "downloader"].
Proof.
  pose proof (getAvailablePluginNames_declaration_order
                "linux" Defaults.defaultConfig) as H.
  destruct H as [H _].
  - repeat constructor.
  - rewrite H. reflexivity.
Defined.

(** The plugins shipped in the default table are available on every
    platform. *)
Lemma default_plugins_everywhere platform :
  getAvailablePluginNames platform Defaults.defaultConfig
  = ["navigation"; "shortcuts"; "adblocker"; "downloader"].
Proof.
  unfold getAvailablePluginNames.
  rewrite object_keys_plain by apply defaultConfig_plain_keys.
  rewrite (List.filter_ext _ _ (name_filter_reserved platform)).
  reflexivity.
Qed.

Example reserved_plugins_by_platform :
  getAvailablePluginNames "win32" Samples.table_with_reserved
  = ["navigation"; "taskbar-mediacontrol"; "shortcuts"]
  ∧ getAvailablePluginNames "darwin" Samples.table_with_reserved
    = ["touchbar"; "navigation"; "shortcuts"]
  ∧ getAvailablePluginNames "linux" Samples.table_with_reserved
    = ["navigation"; "shortcuts"]
  ∧ getAvailablePluginNames "freebsd" Samples.table_with_reserved
    = ["touchbar"; "navigation"; "taskbar-mediacontrol"; "shortcuts"].
Proof. repeat split. Qed.

(** ** Existence check *)

(** C9, as claimed, fails: on a path holding a NUL byte [fs.access] throws
    before it checks anything, so neither callback is invoked, whereas the
    claim has one of the two invoked on every path (the error callback when
    an error is reported, the exists callback when none is). *)
Lemma fileExists_every_path_counterexample :
  ¬ (∀ fs path callbackIfExists callbackIfError,
       callbackIfError ≠ callbackIfExists →
       ∃ error_reported : Prop,
         let invoked :=
           (fileExists fs path callbackIfExists (Some callbackIfError)).2 in
         (callbackIfError ∈ invoked ↔ error_reported)
         ∧ (callbackIfExists ∈ invoked ↔ ¬ error_reported)).
Proof.
  intros Hclaim.
  destruct (Hclaim Samples.one_stylesheet Samples.nul_path 1 2)
    as (E & Herr & Hexists); [done|].
  cbn in Herr, Hexists.
  assert (¬ E) as HnE by (intros HE; apply Herr in HE; by apply elem_of_nil in HE).
  apply Hexists in HnE. by apply elem_of_nil in HnE.
Qed.

Example fileExists_nul_path :
  fileExists Samples.one_stylesheet Samples.nul_path 1 (Some 2)
  = (Throws "ERR_INVALID_ARG_VALUE", []).
Proof. reflexivity. Qed.

(** C9, amended.  On a path [fs.access] accepts (one without NUL byte),
    [fileExists] returns nothing, invokes the error callback exactly when
    [fs.access] reports an error and the exists callback exactly when it
    reports none (no callback at all when an error is reported and no error
    callback was passed).  On a path holding a NUL byte [fs.access] throws:
    the exception leaves [fileExists] and neither callback is invoked.  In
    every case one call invokes at most one callback. *)
Theorem fileExists_callbacks
    (fs : FileSystem) (path : string)
    (callbackIfExists : Callback) (callbackIfError : option Callback) :
  callbackIfError ≠ Some callbackIfExists →
  let result := fileExists fs path callbackIfExists callbackIfError in
  let invoked := result.2 in
  (has_nul_byte path = false →
     result.1 = Returns
     ∧ (∀ cb, callbackIfError = Some cb →
              (cb ∈ invoked ↔ is_Some (access fs path)))
     ∧ (callbackIfExists ∈ invoked ↔ access fs path = None)
     ∧ (callbackIfError = None → is_Some (access fs path) → invoked = []))
  ∧ (has_nul_byte path = true →
     result = (Throws "ERR_INVALID_ARG_VALUE", []))
  ∧ (length invoked ≤ 1)%nat.
Proof.
  intros Hdistinct result invoked. subst invoked result. unfold fileExists.
  destruct (has_nul_byte path).
  { split_and!; [done | done | cbn; lia]. }
  destruct (access fs path) as [err|], callbackIfError as [cbe|]; cbn;
    (split_and!; [intros _; split_and! | done | lia]); try done.
  - intros cb [= ->]. split; [eauto | intros _; by left].
  - split; [|done]. intros ->%list_elem_of_singleton. done.
  - split; [|done]. by intros ?%elem_of_nil.
  - intros cb [= ->]. split; [|by intros [? ?]].
    intros ->%list_elem_of_singleton. done.
  - split; [done | intros _; by left].
  - split; [done | intros _; by left].
Qed.

Lemma fileExists_callbacks_witness :
  let fs := {| access := λ p, if p =? "/missing" then Some "ENOENT" else None;
               read := λ _, None |} in
  fileExists fs "/missing" 1 (Some 2) = (Returns, [2])
  ∧ 1 ∈ (fileExists fs "/present" 1 (Some 2)).2.
Proof.
  intros fs. split; [reflexivity|].
  apply (fileExists_callbacks fs "/present" 1 (Some 2));
    [done | reflexivity | reflexivity].
Defined.

(** ** Config store *)

Lemma get_set_eq exempt path value st :
  Config.get path (Config.set exempt path value st) = value.
Proof.
  unfold Config.set.
  match goal with |- context [if ?c then _ else _] => destruct c end;
    unfold Config.get; cbn; by rewrite lookup_insert_eq.
Qed.

Lemma get_set_ne exempt path path' value st :
  path ≠ path' →
  Config.get path' (Config.set exempt path value st) = Config.get path' st.
Proof.
  intros Hne. unfold Config.set.
  match goal with |- context [if ?c then _ else _] => destruct c end;
    unfold Config.get; cbn; by rewrite lookup_insert_ne.
Qed.

(** ** Tray radio group *)

(** C4.  When [options.tray] and [options.appVisible] hold booleans, exactly
    one of the three tray radio items is built checked, and the click
    handler of each item leaves the two flags at the combination of its
    state. *)
Theorem tray_radio_group_exclusive
    (st : Config.Store) (tray appVisible : bool) :
  Config.get "options.tray" st = JsBool tray →
  Config.get "options.appVisible" st = JsBool appVisible →
  checked_count (tray_radio_group st) = 1
  ∧ checked (tray_disabled st) = Some (JsBool (negb tray))
  ∧ checked (tray_enabled_visible st) = Some (JsBool (tray && appVisible))
  ∧ checked (tray_enabled_hidden st)
    = Some (JsBool (tray && negb appVisible))
  ∧ (∀ item t v,
       (item, t, v) ∈ [ (tray_disabled st, false, true);
                        (tray_enabled_visible st, true, true);
                        (tray_enabled_hidden st, true, false) ] →
       ∃ h, click item = Some h
            ∧ ∀ env reply c w,
                let w' := (run_click env h reply c w).2 in
                Config.get "options.tray" (config w') = JsBool t
                ∧ Config.get "options.appVisible" (config w') = JsBool v).
Proof.
  intros Htray Hvisible.
  assert (∀ env t v reply c w,
            let w' := (run_click env (SetTray t v) reply c w).2 in
            Config.get "options.tray" (config w') = JsBool t
            ∧ Config.get "options.appVisible" (config w') = JsBool v)
    as Hclick.
  { intros env t v reply c w. cbn. unfold Config.setMenuOption. split.
    - rewrite get_set_ne by done. apply get_set_eq.
    - apply get_set_eq. }
  unfold checked_count, tray_radio_group, tray_disabled,
    tray_enabled_visible, tray_enabled_hidden, radio_item.
  cbn [checked]. rewrite Htray, Hvisible.
  split_and!.
  - by destruct tray, appVisible.
  - done.
  - by destruct tray, appVisible.
  - by destruct tray, appVisible.
  - intros item t v Hin. cbn [click].
    repeat (apply elem_of_cons in Hin as [[= -> -> ->]|Hin]);
      [| | | by apply elem_of_nil in Hin];
      (eexists; split; [reflexivity | intros; apply Hclick]).
Qed.

Lemma tray_radio_group_exclusive_witness :
  checked_count (tray_radio_group Config.fresh) = 1.
Proof.
  apply (tray_radio_group_exclusive Config.fresh false true); reflexivity.
Defined.

(** ** Proxy prompt *)

(** C5.  A click on the Proxy checkbox ends in one of three ways.  When the
    prompt is cancelled (it resolves to something that is no string), nothing
    is written (the whole state, [options.proxy] included, is as before) and
    the checkbox is back at its pre-click state.  When the empty string is
    submitted, [options.proxy] is the empty string and the checkbox is
    unchecked.  When a non-empty string is submitted, [options.proxy] is
    that string and the checkbox is checked. *)
Theorem setProxy_outcomes
    (env : Env) (output : JsVal) (pre_click_checked : bool) (w : World) :
  let result := click_checkbox env SetProxy output pre_click_checked w in
  let checked_after := result.1 in
  let w' := result.2 in
  (is_string output = false →
     w' = w
     ∧ Config.get "options.proxy" (config w')
       = Config.get "options.proxy" (config w)
     ∧ checked_after = pre_click_checked)
  ∧ (output = JsStr "" →
     Config.get "options.proxy" (config w') = JsStr ""
     ∧ checked_after = false)
  ∧ (∀ s, output = JsStr s → s ≠ "" →
     Config.get "options.proxy" (config w') = JsStr s
     ∧ checked_after = true)
  ∧ (is_string output = false ∨ output = JsStr ""
     ∨ ∃ s, output = JsStr s ∧ s ≠ "").
Proof.
  cbn zeta. unfold click_checkbox. cbn [run_click]. unfold setProxy.
  split_and!.
  - intros ->. cbn. by rewrite negb_involutive.
  - intros ->. cbn. unfold Config.setMenuOption. by rewrite get_set_eq.
  - intros s -> Hs. cbn. unfold Config.setMenuOption. rewrite get_set_eq.
    split; [done|]. by apply String.eqb_neq in Hs as ->.
  - destruct output; cbn; auto.
    destruct (decide (s = "")) as [->|]; eauto.
Qed.

Lemma setProxy_outcomes_example (env : Env) (pre : bool) (w : World) :
  let result :=
    click_checkbox env SetProxy (JsStr "socks5://127.0.0.1:9999") pre w in
  Config.get "options.proxy" (config result.2)
  = JsStr "socks5://127.0.0.1:9999"
  ∧ result.1 = true.
Proof.
  cbn zeta. unfold click_checkbox. cbn [run_click]. unfold setProxy. cbn.
  unfold Config.setMenuOption. by rewrite get_set_eq.
Qed.

(** ** Plugins submenu *)

(** C6, as claimed, fails: with the downloader's menu module present and
    the downloader disabled (its default), the entry is a bare checkbox, not
    a submenu. *)
Lemma plugin_entry_hook_alone_counterexample :
  ¬ (∀ env st plugin getPluginMenu,
       menu_module env plugin = Some getPluginMenu →
       submenu (plugin_entry env st plugin)
       = Some (pluginEnabledMenu st plugin "Enabled" true true
               :: separator_item
               :: getPluginMenu (Config.getOptions plugin st))).
Proof.
  intros Hclaim.
  specialize (Hclaim Samples.linux_env Config.fresh "downloader"
                Samples.downloader_menu eq_refl).
  vm_compute in Hclaim. discriminate Hclaim.
Qed.

Lemma pluginLabel_or_plugin plugin :
  (if truthy (JsStr (pluginLabel plugin)) then pluginLabel plugin else plugin)
  = pluginLabel plugin.
Proof.
  unfold pluginLabel. destruct (includes betaPlugins plugin).
  - by destruct plugin.
  - cbn. by destruct (String.eqb_spec plugin "") as [->|].
Qed.

Lemma isEnabled_after_toggle env plugin hasSubmenu refreshMenu reply c w :
  Config.isEnabled plugin
    (config (run_click env (TogglePlugin plugin hasSubmenu refreshMenu)
               reply c w).2)
  = c.
Proof.
  unfold Config.isEnabled. cbn.
  destruct c, hasSubmenu, refreshMenu; cbn;
    unfold Config.enable, Config.disable; by rewrite get_set_eq.
Qed.

(** C6, amended.  The Plugins submenu has one entry per plugin, in order.
    An entry is the nested shape (a submenu made of an 'Enabled' checkbox, a
    separator and the plugin's contributed items) when the plugin has a menu
    module and is enabled.  It is a bare checkbox under the plugin's label
    when the plugin has a menu module but is disabled (its click then
    refreshes the menu) and when the plugin has no menu module (its click
    then refreshes nothing).  The checkbox always shows the plugin's enabled
    state, and clicking it stores the new state. *)
Theorem plugin_entry_shapes (env : Env) (st : Config.Store) (plugin : string) :
  let entry := plugin_entry env st plugin in
  match menu_module env plugin with
  | Some getPluginMenu =>
      if Config.isEnabled plugin st
      then entry
           = submenu_item (pluginLabel plugin)
               (checkbox_item "Enabled" (JsBool true)
                              (TogglePlugin plugin true true)
                :: separator_item
                :: getPluginMenu (Config.getOptions plugin st))
      else entry
           = checkbox_item (pluginLabel plugin) (JsBool false)
                           (TogglePlugin plugin true true)
  | None =>
      entry
      = checkbox_item (pluginLabel plugin)
                      (JsBool (Config.isEnabled plugin st))
                      (TogglePlugin plugin false false)
  end
  ∧ children (plugins_menu env st) = plugin_entry env st <$> all_plugins env
  ∧ (∀ hasSubmenu refreshMenu reply c w,
       let w' := (run_click env (TogglePlugin plugin hasSubmenu refreshMenu)
                    reply c w).2 in
       Config.isEnabled plugin (config w') = c
       ∧ host_calls w'
         = host_calls w
           ++ (if hasSubmenu && refreshMenu then ["refreshMenu"] else [])).
Proof.
  cbn zeta. split_and!.
  - unfold plugin_entry, pluginEnabledMenu.
    destruct (menu_module env plugin) as [getPluginMenu|].
    + destruct (Config.isEnabled plugin st) eqn:E; cbn [negb].
      * reflexivity.
      * by rewrite pluginLabel_or_plugin.
    + by rewrite pluginLabel_or_plugin.
  - reflexivity.
  - intros hasSubmenu refreshMenu reply c w. split.
    + apply isEnabled_after_toggle.
    + destruct c, hasSubmenu, refreshMenu; cbn; by rewrite ?app_nil_r.
Qed.

Example plugin_entry_downloader_disabled :
  plugin_entry Samples.linux_env Config.fresh "downloader"
  = checkbox_item "downloader" (JsBool false)
                  (TogglePlugin "downloader" true true).
Proof. reflexivity. Qed.

Example plugin_entry_downloader_enabled :
  let st := Config.enable (λ _, false) "downloader" Config.fresh in
  plugin_entry Samples.linux_env st "downloader"
  = submenu_item "downloader"
      [ checkbox_item "Enabled" (JsBool true)
                      (TogglePlugin "downloader" true true);
        separator_item;
        action_item "Choose download folder" EditConfig ].
Proof. reflexivity. Qed.

(** ** Platform conditionals *)

Lemma has_role_plugin_entry r env st plugin :
  has_role r (plugin_entry env st plugin) = false.
Proof.
  unfold plugin_entry.
  destruct (menu_module env plugin); [destruct (negb _)|]; reflexivity.
Qed.

Lemma existsb_has_role_plugin_entries r env st :
  existsb (has_role r) (children (plugins_menu env st)) = false.
Proof.
  cbn. induction (all_plugins env) as [|plugin l IH]; [done|].
  cbn. by rewrite has_role_plugin_entry.
Qed.

(** C8.  In the template handed to the host, 'Hide menu' is among the
    Options items exactly on Windows and Linux and 'Start at login' exactly
    on Windows and macOS; the DevTools entry of the advanced options is an
    item with its own click handler on macOS and the 'toggleDevTools' role
    anywhere else; and the template starts with the application menu, the
    only one holding the 'about' role, exactly on macOS.  The items are put
    in or left out when the template is built: the template is a function
    of the platform and the store, and its items carry no visibility
    attribute. *)
Theorem platform_conditionals (env : Env) (st : Config.Store) :
  let p := platform env in
  let template := setApplicationMenu env st in
  let options_items := items_under "Options" template in
  let advanced_items := items_under "Advanced options" options_items in
  existsb (has_label "Hide menu") options_items
  = (Is.windows p || Is.linux p)
  ∧ existsb (has_label "Start at login") options_items
    = (Is.windows p || Is.macOS p)
  ∧ existsb (λ it, has_label "Toggle DevTools" it
                   && toggles_dev_tools_natively it) advanced_items
    = Is.macOS p
  ∧ existsb (has_role "toggleDevTools") advanced_items = negb (Is.macOS p)
  ∧ existsb (has_role "about") (mbind children template) = Is.macOS p
  ∧ template
    = (if Is.macOS p then [app_menu env] else []) ++ mainMenuTemplate env st
  ∧ existsb (has_role "about") (mbind children (mainMenuTemplate env st))
    = false.
Proof.
  cbn zeta.
  unfold setApplicationMenu, mainMenuTemplate, options_menu, hide_menu_items,
    start_at_login_items, advanced_options_menu, tray_menu, dev_tools_item,
    items_under, Is.windows, Is.macOS, Is.linux.
  pose proof (existsb_has_role_plugin_entries "about" env st) as Hplugins.
  change (children (plugins_menu env st))
    with (plugin_entry env st <$> all_plugins env) in Hplugins.
  destruct (platform env =? "darwin"), (platform env =? "win32"),
    (platform env =? "linux");
    cbn; destruct (app_name env =? "Options"); cbn;
    rewrite ?app_nil_r, ?existsb_app, ?Hplugins; split_and!; reflexivity.
Qed.

(** ** CSS injection *)

Lemma listeners_register r s :
  listeners (register r s)
  = if nothing_pending s then listeners s ++ [reg_target r] else listeners s.
Proof. destruct r; cbn; by destruct (nothing_pending s). Qed.

Lemma cssToInject_register r s :
  cssToInject (register r s)
  = match r with
    | RegInline _ css cb => map_set css cb (cssToInject s)
    | RegFile _ _ _ => cssToInject s
    end.
Proof. destruct r; cbn; by destruct (nothing_pending s). Qed.

Lemma cssToInjectFile_register r s :
  cssToInjectFile (register r s)
  = match r with
    | RegInline _ _ _ => cssToInjectFile s
    | RegFile _ filepath cb => map_set filepath cb (cssToInjectFile s)
    end.
Proof. destruct r; cbn; by destruct (nothing_pending s). Qed.

Lemma nothing_pending_register r s : nothing_pending (register r s) = false.
Proof.
  unfold nothing_pending.
  rewrite cssToInject_register, cssToInjectFile_register.
  apply andb_false_iff. destruct r as [wc css cb|wc filepath cb].
  - left. apply Nat.eqb_neq, map_size_set_pos.
  - right. apply Nat.eqb_neq, map_size_set_pos.
Qed.

Lemma register_all_snoc rs r s :
  register_all (rs ++ [r]) s = register r (register_all rs s).
Proof. unfold register_all. by rewrite foldl_app. Qed.

(** Once something is pending, no registration attaches a listener. *)
Lemma listeners_register_all_pending rs s :
  nothing_pending s = false →
  listeners (register_all rs s) = listeners s
  ∧ nothing_pending (register_all rs s) = false.
Proof.
  revert s. induction rs as [|r rs IH]; intros s Hs; [done|].
  change (register_all (r :: rs) s) with (register_all rs (register r s)).
  destruct (IH (register r s) (nothing_pending_register r s)) as [-> ->].
  by rewrite listeners_register, Hs.
Qed.

Lemma listeners_register_all_initial rs :
  listeners (register_all rs initial)
  = match rs with [] => [] | r :: _ => [reg_target r] end.
Proof.
  destruct rs as [|r rs]; [done|].
  change (register_all (r :: rs) initial)
    with (register_all rs (register r initial)).
  destruct (listeners_register_all_pending rs (register r initial)
              (nothing_pending_register r initial)) as [-> _].
  by rewrite listeners_register.
Qed.

Lemma did_finish_load_single fs target s :
  listeners s = [target] →
  did_finish_load fs target s = on_did_finish_load fs target s.
Proof.
  intros Hl. unfold did_finish_load. rewrite Hl. cbn.
  rewrite Nat.eqb_refl. cbn. apply app_nil_r.
Qed.

Lemma did_finish_load_other fs target wc s :
  listeners s = [wc] → target ≠ wc → did_finish_load fs target s = [].
Proof.
  intros Hl Hne. unfold did_finish_load. rewrite Hl. cbn.
  by apply Nat.eqb_neq in Hne as ->.
Qed.

(** C2, as claimed, fails: a first registration for a second target
    attaches no listener to it, and a load event there applies nothing. *)
Lemma listener_per_target_counterexample :
  ¬ (∀ rs r,
       Forall (λ r', reg_target r' ≠ reg_target r) rs →
       reg_target r ∈ listeners (register_all (rs ++ [r]) initial)).
Proof.
  intros Hclaim.
  specialize (Hclaim [RegInline 1 "a{}" None] (RegFile 2 "a.css" None)).
  cbn in Hclaim. apply list_elem_of_singleton in Hclaim; [done|].
  by repeat constructor.
Qed.

Example second_target_never_styled :
  run Samples.one_stylesheet
    [ Register (RegInline 1 "a{}" None);
      Register (RegFile 2 "a.css" None);
      DidFinishLoad 2;
      DidFinishLoad 1 ] initial
  = ({| cssToInject := [("a{}", None)];
        cssToInjectFile := [("a.css", None)];
        listeners := [1] |},
     [ Applied 1 (Inline "a{}") "a{}" None;
       Applied 1 (FromFile "a.css") "a{}" None ]).
Proof. reflexivity. Qed.

(** C2, amended.  A registration attaches a load-completion listener, to
    its own target, exactly when both maps are empty at that moment.
    Counted from the loading of the module, this is the first registration
    and no other: the only target that ever has a listener is the target of
    the first registration.  A load event on that target starts one task
    per pending entry, inline and file-based, whatever target the entry was
    registered with, all against that target; a load event on any other
    target starts none. *)
Theorem listener_attached_by_first_registration :
  (∀ r s,
     listeners (register r s)
     = if nothing_pending s
       then listeners s ++ [reg_target r] else listeners s)
  ∧ (∀ r rs,
       let s := register_all (r :: rs) initial in
       listeners s = [reg_target r]
       ∧ ∀ fs target,
           did_finish_load fs target s
           = if bool_decide (target = reg_target r)
             then (inject_inline target <$> cssToInject s)
                  ++ (inject_file fs target <$> cssToInjectFile s)
             else []).
Proof.
  split; [apply listeners_register|].
  intros r rs s.
  pose proof (listeners_register_all_initial (r :: rs)) as Hl.
  split; [done|]. intros fs target. case_bool_decide as Ht.
  - subst target. subst s. rewrite did_finish_load_single by exact Hl.
    reflexivity.
  - subst s. apply (did_finish_load_other _ _ _ _ Hl Ht).
Qed.

(** *** Cumulative application *)

(** A load event leaves the pending entries and the listeners as they
    are. *)
Lemma step_load_keeps_state fs target s :
  (step fs (DidFinishLoad target) s).1 = s.
Proof. reflexivity. Qed.





(** *** Order of application *)

Lemma cssToInject_register_all rs s :
  cssToInject (register_all rs s)
  = foldl set_entry (cssToInject s) (inline_entries rs).
Proof.
  revert s. induction rs as [|r rs IH]; intros s; [done|].
  change (register_all (r :: rs) s) with (register_all rs (register r s)).
  rewrite IH, cssToInject_register. by destruct r.
Qed.

Lemma cssToInjectFile_register_all rs s :
  cssToInjectFile (register_all rs s)
  = foldl set_entry (cssToInjectFile s) (file_entries rs).
Proof.
  revert s. induction rs as [|r rs IH]; intros s; [done|].
  change (register_all (r :: rs) s) with (register_all rs (register r s)).
  rewrite IH, cssToInjectFile_register. by destruct r.
Qed.

Lemma map_keys_foldl_set es (m : JsMap (option Callback)) :
  map_keys (foldl set_entry m es)
  = map_keys m ++ filter (λ k, k ∉ map_keys m) (first_occurrences es.*1).
Proof.
  revert m. induction es as [|[k v] es IH]; intros m.
  - cbn. by rewrite app_nil_r.
  - cbn [foldl]. rewrite IH. unfold set_entry. cbn [fst snd].
    rewrite fmap_cons. cbn [fst first_occurrences]. rewrite filter_cons.
    pose proof (map_keys_set m k v) as Hk.
    destruct (decide (k ∈ map_keys m)) as [Hin|Hin].
    + rewrite bool_decide_eq_true_2 in Hk by done.
      rewrite decide_False by tauto.
      rewrite (list_filter_iff (λ k0, k0 ∉ map_keys (map_set k v m))
                               (λ k0, k0 ∉ map_keys m))
        by (intros; by rewrite Hk).
      rewrite Hk. f_equal.
      rewrite list_filter_filter. apply list_filter_iff.
      intros x. split; [|tauto]. intros Hx. split; [done|].
      intros ->. done.
    + rewrite bool_decide_eq_false_2 in Hk by done.
      rewrite decide_True by done.
      rewrite (list_filter_iff (λ k0, k0 ∉ map_keys (map_set k v m))
                               (λ k0, k0 ∉ map_keys m ++ [k]))
        by (intros; by rewrite Hk).
      rewrite Hk, <- app_assoc. cbn. do 2 f_equal.
      rewrite list_filter_filter. apply list_filter_iff.
      intros x. rewrite elem_of_app, list_elem_of_singleton. tauto.
Qed.

Lemma filter_not_in_nil (l : list string) :
  filter (λ k : string, k ∉ @nil string) l = l.
Proof.
  induction l as [|x l IH]; [done|].
  rewrite filter_cons, decide_True by apply not_elem_of_nil. by rewrite IH.
Qed.

Lemma task_source_inject_inline target (m : JsMap (option Callback)) :
  task_source <$> (inject_inline target <$> m) = Inline <$> map_keys m.
Proof.
  unfold map_keys. rewrite <- !list_fmap_compose.
  apply list_fmap_ext. by intros _ [k v] _.
Qed.

Lemma task_source_inject_file fs target (m : JsMap (option Callback)) :
  task_source <$> (inject_file fs target <$> m) = FromFile <$> map_keys m.
Proof.
  unfold map_keys. rewrite <- !list_fmap_compose.
  apply list_fmap_ext. intros _ [k v] _. cbn. by destruct (read fs k).
Qed.

(** C7, as claimed, fails: a file-based stylesheet registered first is
    applied after an inline one registered later, so the tasks of a load
    event do not follow the order of registration. *)
Lemma registration_order_counterexample :
  ¬ (∀ fs r rs,
       NoDup (reg_source <$> r :: rs) →
       task_source
         <$> did_finish_load fs (reg_target r) (register_all (r :: rs) initial)
       = reg_source <$> r :: rs).
Proof.
  intros Hclaim.
  specialize (Hclaim Samples.one_stylesheet
                (RegFile 1 "a.css" None) [RegInline 1 "b{}" None]).
  cbn in Hclaim. discriminate Hclaim.
  repeat constructor; rewrite ?list_elem_of_singleton; by try apply not_elem_of_nil.
Qed.

Example file_registered_first_applied_last :
  insert_css_calls
    (did_finish_load Samples.one_stylesheet 1
       (register_all [RegFile 1 "a.css" None; RegInline 1 "b{}" None]
          initial))
  = [(1, "b{}"); (1, "a{}")].
Proof. reflexivity. Qed.

(** C7, amended.  A load-completion event starts the tasks of all inline
    entries first, in the insertion order of [cssToInject], and then the
    tasks of all file-based entries, in the insertion order of
    [cssToInjectFile]; within a map, an entry stands at the place of its
    first registration.  So of two entries of the same kind the one first
    registered earlier is applied first, and an inline entry is applied
    before every file-based one, whenever they were registered. *)
Theorem injection_order (fs : FileSystem) (r : Registration)
    (rs : list Registration) :
  let history := r :: rs in
  let s := register_all history initial in
  task_source <$> did_finish_load fs (reg_target r) s
  = (Inline <$> first_occurrences (inline_entries history).*1)
    ++ (FromFile <$> first_occurrences (file_entries history).*1).
Proof.
  intros history s. subst s.
  rewrite did_finish_load_single
    by apply (listeners_register_all_initial history).
  unfold on_did_finish_load.
  rewrite fmap_app, task_source_inject_inline, task_source_inject_file.
  rewrite cssToInject_register_all, cssToInjectFile_register_all.
  rewrite !map_keys_foldl_set. cbn [initial cssToInject cssToInjectFile].
  unfold map_keys. cbn [fmap list_fmap app].
  by rewrite !filter_not_in_nil.
Qed.

Example injection_order_example :
  task_source
    <$> did_finish_load Samples.one_stylesheet 1
          (register_all
             [ RegFile 1 "a.css" None; RegInline 1 "x{}" None;
               RegInline 2 "y{}" None; RegInline 1 "x{}" (Some 3) ]
             initial)
  = [Inline "x{}"; Inline "y{}"; FromFile "a.css"].
Proof. reflexivity. Qed.

(** *** Entries are keyed by content *)

Lemma map_keys_set_mono {V} (m : JsMap V) k k' (v : V) :
  k ∈ map_keys m → k ∈ map_keys (map_set k' v m).
Proof.
  intros Hin. rewrite map_keys_set. case_bool_decide; [done|].
  apply elem_of_app. by left.
Qed.

Lemma map_keys_set_in {V} (m : JsMap V) k (v : V) :
  k ∈ map_keys (map_set k v m).
Proof.
  rewrite map_keys_set. case_bool_decide; [done|].
  apply elem_of_app. right. by left.
Qed.

Lemma foldl_set_NoDup es (m : JsMap (option Callback)) :
  NoDup (map_keys m) → NoDup (map_keys (foldl set_entry m es)).
Proof.
  revert m. induction es as [|e es IH]; intros m Hm; [done|].
  cbn [foldl]. apply IH. by apply map_set_NoDup.
Qed.

Lemma foldl_set_key es (m : JsMap (option Callback)) k :
  k ∈ map_keys m ∨ k ∈ es.*1 → k ∈ map_keys (foldl set_entry m es).
Proof.
  revert m. induction es as [|[k' v] es IH]; intros m Hk.
  - destruct Hk as [Hk|Hk]; [done | by apply elem_of_nil in Hk].
  - cbn [foldl]. apply IH. unfold set_entry. cbn [fst snd].
    destruct Hk as [Hk|Hk].
    + left. by apply map_keys_set_mono.
    + rewrite fmap_cons in Hk. apply elem_of_cons in Hk as [->|Hk].
      * left. apply map_keys_set_in.
      * by right.
Qed.

Lemma register_all_NoDup rs :
  NoDup (map_keys (cssToInject (register_all rs initial)))
  ∧ NoDup (map_keys (cssToInjectFile (register_all rs initial))).
Proof.
  rewrite cssToInject_register_all, cssToInjectFile_register_all.
  split; apply foldl_set_NoDup; constructor.
Qed.

Lemma inline_registered rs css :
  Inline css ∈ (reg_source <$> rs) → css ∈ (inline_entries rs).*1.
Proof.
  induction rs as [|r rs IH]; [by intros ?%elem_of_nil|].
  rewrite fmap_cons. intros [Hr|Hr]%elem_of_cons.
  - destruct r; [|discriminate Hr]. injection Hr as ->. cbn. by left.
  - destruct r; cbn; [right|]; by apply IH.
Qed.

Lemma file_registered rs filepath :
  FromFile filepath ∈ (reg_source <$> rs) → filepath ∈ (file_entries rs).*1.
Proof.
  induction rs as [|r rs IH]; [by intros ?%elem_of_nil|].
  rewrite fmap_cons. intros [Hr|Hr]%elem_of_cons.
  - destruct r; [discriminate Hr|]. injection Hr as ->. cbn. by left.
  - destruct r; cbn; [|right]; by apply IH.
Qed.

Section TasksOfSource.
Variables (fs : FileSystem) (target : WebContents).
Implicit Type m : JsMap (option Callback).

Lemma filter_inline_tasks m css :
  filter (λ t, task_source t = Inline css) (inject_inline target <$> m)
  = inject_inline target <$> filter (λ e, e.1 = css) m.
Proof.
  induction m as [|[k v] m IH]; [done|].
  rewrite fmap_cons, !filter_cons. cbn [inject_inline task_source fst].
  destruct (decide (k = css)) as [->|Hne].
  - rewrite decide_True by done. by rewrite fmap_cons, IH.
  - rewrite decide_False by congruence. done.
Qed.

Lemma filter_file_tasks m filepath :
  filter (λ t, task_source t = FromFile filepath)
         (inject_file fs target <$> m)
  = inject_file fs target <$> filter (λ e, e.1 = filepath) m.
Proof.
  induction m as [|[k v] m IH]; [done|].
  rewrite fmap_cons, !filter_cons.
  assert (task_source (inject_file fs target (k, v)) = FromFile k) as ->
    by (cbn; by destruct (read fs k)).
  cbn [fst]. destruct (decide (k = filepath)) as [->|Hne].
  - rewrite decide_True by done. by rewrite fmap_cons, IH.
  - rewrite decide_False by congruence. done.
Qed.

Lemma filter_inline_tasks_of_files m css :
  filter (λ t, task_source t = Inline css) (inject_file fs target <$> m)
  = [].
Proof.
  apply filter_none. intros t [[k v] [-> _]]%list_elem_of_fmap.
  cbn. by destruct (read fs k).
Qed.

Lemma filter_file_tasks_of_inline m filepath :
  filter (λ t, task_source t = FromFile filepath)
         (inject_inline target <$> m)
  = [].
Proof.
  apply filter_none. by intros t [[k v] [-> _]]%list_elem_of_fmap.
Qed.

End TasksOfSource.

Example re_registration_load :
  did_finish_load Samples.one_stylesheet 1
    (register_all
       [ RegInline 1 "a{}" (Some 1); RegFile 1 "a.css" (Some 5);
         RegInline 2 "a{}" (Some 2) ] initial)
  = [ Applied 1 (Inline "a{}") "a{}" (Some 2);
      Applied 1 (FromFile "a.css") "a{}" (Some 5) ].
Proof. reflexivity. Qed.

(* ===================================================================== *)
(** * Further properties *)
(* ===================================================================== *)

(** ** CSS injection: what a load event injects, and where *)

Lemma elem_of_insert_css_calls call ts :
  call ∈ insert_css_calls ts
  ↔ ∃ src cb, Applied call.1 src call.2 cb ∈ ts.
Proof.
  unfold insert_css_calls. rewrite list_elem_of_omap. split.
  - intros (t & Ht & Hcall). destruct t as [wc src text cb|]; [|done].
    injection Hcall as <-. cbn. eauto.
  - intros (src & cb & Ht). eexists. split; [exact Ht|]. by destruct call.
Qed.

Lemma elem_of_did_finish_load fs target s t :
  t ∈ did_finish_load fs target s
  ↔ target ∈ listeners s ∧ t ∈ on_did_finish_load fs target s.
Proof.
  unfold did_finish_load. rewrite list_elem_of_bind. split.
  - intros (wc & Ht & Hwc). apply list_elem_of_In, filter_In in Hwc.
    destruct Hwc as [Hwc ->%Nat.eqb_eq]. by apply list_elem_of_In in Hwc.
  - intros [Hl Ht]. exists target. split; [done|].
    apply list_elem_of_In, filter_In. split; [by apply list_elem_of_In|].
    apply Nat.eqb_refl.
Qed.

Lemma elem_of_on_did_finish_load fs wc s t :
  t ∈ on_did_finish_load fs wc s
  ↔ (∃ e, e ∈ cssToInject s ∧ t = inject_inline wc e)
    ∨ (∃ e, e ∈ cssToInjectFile s ∧ t = inject_file fs wc e).
Proof.
  unfold on_did_finish_load. rewrite elem_of_app, !list_elem_of_fmap.
  split; intros [(e & ? & ?)|(e & ? & ?)]; eauto.
Qed.

(** X1.  Whatever the state, every [insertCSS] call of a load-completion
    event goes to the target that finished loading, and a text is injected
    there exactly when that target has a listener and the text is a pending
    inline stylesheet or the content of a pending, readable file. *)
Theorem injected_texts (fs : FileSystem) (target : WebContents)
    (s : CssState) :
  (∀ call, call ∈ insert_css_calls (did_finish_load fs target s) →
           call.1 = target)
  ∧ (∀ text,
       (target, text) ∈ insert_css_calls (did_finish_load fs target s)
       ↔ target ∈ listeners s
         ∧ (text ∈ map_keys (cssToInject s)
            ∨ ∃ filepath, filepath ∈ map_keys (cssToInjectFile s)
                          ∧ read fs filepath = Some text)).
Proof.
  split.
  - intros call (src & cb & Ht)%elem_of_insert_css_calls.
    apply elem_of_did_finish_load in Ht as [_ Ht].
    apply elem_of_on_did_finish_load in Ht as [([k v] & _ & Ht)|([k v] & _ & Ht)].
    + by injection Ht.
    + cbn in Ht. destruct (read fs k); [by injection Ht | done].
  - intros text. rewrite elem_of_insert_css_calls. cbn [fst snd]. split.
    + intros (src & cb & Ht).
      apply elem_of_did_finish_load in Ht as [Hl Ht]. split; [done|].
      apply elem_of_on_did_finish_load in Ht
        as [([k v] & He & Ht)|([k v] & He & Ht)].
      * left. injection Ht as -> -> ->.
        apply list_elem_of_fmap. by exists (k, v).
      * right. cbn in Ht. destruct (read fs k) as [text'|] eqn:Hr; [|done].
        injection Ht as -> -> ->. exists k. split; [|done].
        apply list_elem_of_fmap. by exists (k, v).
    + intros [Hl [Hin|(filepath & Hin & Hr)]].
      * apply list_elem_of_fmap in Hin as ([k v] & -> & He).
        exists (Inline k), v. apply elem_of_did_finish_load. split; [done|].
        apply elem_of_on_did_finish_load. left. by exists (k, v).
      * apply list_elem_of_fmap in Hin as ([k v] & -> & He).
        exists (FromFile k), v. apply elem_of_did_finish_load.
        split; [done|]. apply elem_of_on_did_finish_load. right.
        exists (k, v). split; [done|]. cbn in *. by rewrite Hr.
Qed.

(** ** CSS injection: nothing is ever removed *)

Lemma map_keys_set_prefix {V} (m : JsMap V) k (v : V) :
  map_keys m `prefix_of` map_keys (map_set k v m).
Proof.
  rewrite map_keys_set. case_bool_decide; [done|]. by apply prefix_app_r.
Qed.

Lemma step_keys_prefix fs e s :
  map_keys (cssToInject s) `prefix_of` map_keys (cssToInject (step fs e s).1)
  ∧ map_keys (cssToInjectFile s)
    `prefix_of` map_keys (cssToInjectFile (step fs e s).1)
  ∧ listeners s `prefix_of` listeners (step fs e s).1.
Proof.
  destruct e as [r|target]; cbn [step fst]; [|done].
  rewrite cssToInject_register, cssToInjectFile_register, listeners_register.
  split_and!.
  - destruct r; [apply map_keys_set_prefix | done].
  - destruct r; [done | apply map_keys_set_prefix].
  - destruct (nothing_pending s); [by apply prefix_app_r | done].
Qed.

Lemma run_cons fs e es s :
  (run fs (e :: es) s).1 = (run fs es (step fs e s).1).1.
Proof.
  cbn [run]. destruct (step fs e s) as [s1 ts1]. cbn [fst].
  by destruct (run fs es s1).
Qed.

(** X2.  Whatever events follow (registrations for any target, load
    events), the pending stylesheets and the listeners of a state are kept,
    in place: the keys of both maps and the listener list of the earlier
    state are prefixes of those of the later state.  Nothing is ever
    removed, consumed or reordered. *)
Theorem pending_entries_are_kept (fs : FileSystem) (es : list Event)
    (s : CssState) :
  let s' := (run fs es s).1 in
  map_keys (cssToInject s) `prefix_of` map_keys (cssToInject s')
  ∧ map_keys (cssToInjectFile s) `prefix_of` map_keys (cssToInjectFile s')
  ∧ listeners s `prefix_of` listeners s'.
Proof.
  cbn zeta. revert s. induction es as [|e es IH]; intros s; [done|].
  rewrite run_cons.
  destruct (step_keys_prefix fs e s) as (H1 & H2 & H3).
  destruct (IH (step fs e s).1) as (H1' & H2' & H3').
  split_and!; by etrans.
Qed.

(** ** CSS injection: the last registration of an entry decides its
    callback *)

Lemma map_get_foldl_set_absent es (m : JsMap (option Callback)) k :
  k ∉ es.*1 → map_get k (foldl set_entry m es) = map_get k m.
Proof.
  revert m. induction es as [|[k' v'] es IH]; intros m Hk; [done|].
  rewrite fmap_cons, not_elem_of_cons in Hk. destruct Hk as [Hne Hk].
  cbn [foldl]. rewrite IH by done. unfold set_entry. cbn [fst snd].
  by apply map_get_set_ne.
Qed.

Lemma register_all_app rs1 rs2 s :
  register_all (rs1 ++ rs2) s = register_all rs2 (register_all rs1 s).
Proof. unfold register_all. apply foldl_app. Qed.

Lemma not_inline_registered rs css :
  Inline css ∉ (reg_source <$> rs) → css ∉ (inline_entries rs).*1.
Proof.
  induction rs as [|r rs IH]; [intros _; apply not_elem_of_nil|].
  rewrite fmap_cons, not_elem_of_cons. intros [Hr Hrs].
  destruct r as [wc k cb|wc k cb]; cbn; [|by apply IH].
  rewrite not_elem_of_cons. split; [|by apply IH].
  intros ->. by apply Hr.
Qed.

Lemma not_file_registered rs filepath :
  FromFile filepath ∉ (reg_source <$> rs) →
  filepath ∉ (file_entries rs).*1.
Proof.
  induction rs as [|r rs IH]; [intros _; apply not_elem_of_nil|].
  rewrite fmap_cons, not_elem_of_cons. intros [Hr Hrs].
  destruct r as [wc k cb|wc k cb]; cbn; [by apply IH|].
  rewrite not_elem_of_cons. split; [|by apply IH].
  intros ->. by apply Hr.
Qed.

Lemma map_get_elem_of {V} (m : JsMap V) k (v : V) :
  map_get k m = Some v → (k, v) ∈ m.
Proof.
  induction m as [|[k' v'] m IH]; [done|]. cbn.
  destruct (String.eqb_spec k' k) as [->|Hne].
  - intros [= ->]. by left.
  - intros Hget. right. by apply IH.
Qed.

Lemma pending_callback_last rs1 rs2 r s :
  reg_source r ∉ (reg_source <$> rs2) →
  pending_callback (reg_source r) (register_all (rs1 ++ r :: rs2) s)
  = Some (reg_callback r).
Proof.
  intros Hlater. rewrite register_all_app.
  change (register_all (r :: rs2) ?x)
    with (register_all rs2 (register r x)).
  unfold pending_callback.
  destruct r as [wc css cb|wc filepath cb]; cbn [reg_source reg_callback] in *.
  - rewrite cssToInject_register_all.
    rewrite map_get_foldl_set_absent by (by apply not_inline_registered).
    rewrite cssToInject_register. apply map_get_set_eq.
  - rewrite cssToInjectFile_register_all.
    rewrite map_get_foldl_set_absent by (by apply not_file_registered).
    rewrite cssToInjectFile_register. apply map_get_set_eq.
Qed.

(** X3.  The callback kept for a stylesheet is the one of its last
    registration: when a registration is followed only by registrations of
    other stylesheets, its callback (or its absence) is the one stored,
    whatever the state before and whatever was registered before it, and it
    is the continuation of the task a load event starts for that
    stylesheet. *)
Theorem last_registration_wins
    (fs : FileSystem) (rs1 rs2 : list Registration) (r : Registration)
    (s : CssState) :
  reg_source r ∉ (reg_source <$> rs2) →
  let s' := register_all (rs1 ++ r :: rs2) s in
  pending_callback (reg_source r) s' = Some (reg_callback r)
  ∧ ∀ wc, start_task fs wc (reg_source r) (reg_callback r)
          ∈ on_did_finish_load fs wc s'.
Proof.
  intros Hlater s'.
  pose proof (pending_callback_last rs1 rs2 r s Hlater) as Hcb. fold s' in Hcb.
  split; [done|]. intros wc. apply elem_of_on_did_finish_load.
  unfold pending_callback in Hcb.
  destruct (reg_source r) as [css|filepath];
    apply map_get_elem_of in Hcb; [left | right]; eauto.
Qed.

Lemma last_registration_wins_witness :
  pending_callback (Inline "a{}")
    (register_all
       [ RegInline 1 "a{}" (Some 1); RegInline 2 "a{}" None;
         RegFile 1 "a.css" (Some 3) ] initial)
  = Some None.
Proof.
  apply (last_registration_wins Samples.one_stylesheet
           [RegInline 1 "a{}" (Some 1)] [RegFile 1 "a.css" (Some 3)]
           (RegInline 2 "a{}" None) initial).
  cbn. rewrite list_elem_of_singleton. discriminate.
Defined.

(** ** CSS injection: only registered callbacks run *)

Lemma elem_of_map_set {V} (m : JsMap V) k (v : V) e :
  e ∈ map_set k v m → e = (k, v) ∨ e ∈ m.
Proof.
  induction m as [|[k' v'] m IH]; cbn.
  - intros ->%list_elem_of_singleton. by left.
  - destruct (k' =? k).
    + intros [->|He]%elem_of_cons; [by left|]. right. by right.
    + intros [->|He]%elem_of_cons; [right; by left|].
      destruct (IH He) as [->|Hm]; [by left|]. right. by right.
Qed.

Lemma elem_of_foldl_set es (m : JsMap (option Callback)) e :
  e ∈ foldl set_entry m es → e ∈ m ∨ e ∈ es.
Proof.
  revert m. induction es as [|[k v] es IH]; intros m; [by left|].
  cbn [foldl]. intros [He|He]%IH.
  - apply elem_of_map_set in He as [->|He]; [right; by left | by left].
  - right. by right.
Qed.

Lemma elem_of_inline_entries rs css cb :
  (css, cb) ∈ inline_entries rs → ∃ wc, RegInline wc css cb ∈ rs.
Proof.
  unfold inline_entries. rewrite list_elem_of_omap.
  intros ([wc k c|wc k c] & Hr & [= -> ->]). eauto.
Qed.

Lemma elem_of_file_entries rs filepath cb :
  (filepath, cb) ∈ file_entries rs → ∃ wc, RegFile wc filepath cb ∈ rs.
Proof.
  unfold file_entries. rewrite list_elem_of_omap.
  intros ([wc k c|wc k c] & Hr & [= -> ->]). eauto.
Qed.

(** X4.  Counted from the loading of the module, a load-completion event
    only starts tasks for stylesheets that were registered, and the
    continuation of such a task is a callback passed in a registration of
    that very stylesheet: no callback runs that was not registered, and none
    runs for another stylesheet than its own. *)
Theorem only_registered_callbacks_run
    (fs : FileSystem) (target : WebContents) (rs : list Registration)
    (wc : WebContents) (src : Source) (text : string) (cb : option Callback) :
  Applied wc src text cb ∈ did_finish_load fs target (register_all rs initial) →
  ∃ r, r ∈ rs ∧ reg_source r = src ∧ reg_callback r = cb.
Proof.
  intros Ht. apply elem_of_did_finish_load in Ht as [_ Ht].
  apply elem_of_on_did_finish_load in Ht as [([k v] & He & Ht)|([k v] & He & Ht)].
  - injection Ht as -> -> -> ->.
    rewrite cssToInject_register_all in He.
    apply elem_of_foldl_set in He as [He|He]; [by apply elem_of_nil in He|].
    apply elem_of_inline_entries in He as [wc' Hr]. by eexists.
  - cbn in Ht. destruct (read fs k); [|done]. injection Ht as -> -> -> ->.
    rewrite cssToInjectFile_register_all in He.
    apply elem_of_foldl_set in He as [He|He]; [by apply elem_of_nil in He|].
    apply elem_of_file_entries in He as [wc' Hr]. by eexists.
Qed.

Lemma only_registered_callbacks_run_witness :
  ∃ r, r ∈ [RegInline 1 "a{}" (Some 4); RegFile 1 "a.css" (Some 5)]
       ∧ reg_source r = FromFile "a.css" ∧ reg_callback r = Some 5.
Proof.
  apply (only_registered_callbacks_run Samples.one_stylesheet 1
           [RegInline 1 "a{}" (Some 4); RegFile 1 "a.css" (Some 5)]
           1 (FromFile "a.css") "a{}" (Some 5)).
  cbn. right. by left.
Defined.

(** ** Plugin names: any table, any platform *)

Lemma insert_by_index_perm x l : insert_by_index x l ≡ₚ x :: l.
Proof.
  induction l as [|y l IH]; [done|]. cbn.
  destruct (x.1 <=? y.1)%N; [done|]. rewrite IH. apply Permutation_swap.
Qed.

Lemma sort_by_index_perm l : sort_by_index l ≡ₚ l.
Proof.
  unfold sort_by_index. induction l as [|x l IH]; [done|].
  cbn. by rewrite insert_by_index_perm, IH.
Qed.

Lemma index_keys_names ks :
  (index_keys ks).*2 = List.filter (λ k, negb (is_plain_key k)) ks.
Proof.
  unfold index_keys. induction ks as [|k ks IH]; [done|].
  cbn. unfold is_plain_key at 1. destruct (array_index k); cbn; by rewrite IH.
Qed.

Lemma filter_partition_perm {A} (f : A → bool) (l : list A) :
  List.filter (λ x, negb (f x)) l ++ List.filter f l ≡ₚ l.
Proof.
  induction l as [|x l IH]; [done|]. cbn. destruct (f x); cbn.
  - by rewrite <- Permutation_middle, IH.
  - by rewrite IH.
Qed.

(** [Object.keys] lists every key of the object once. *)
Lemma object_keys_perm {V} (o : JsObject V) : object_keys o ≡ₚ o.*1.
Proof.
  unfold object_keys.
  rewrite (fmap_Permutation snd _ _ (sort_by_index_perm _)), index_keys_names.
  apply filter_partition_perm.
Qed.

(** X5.  For any default table (also one with number-like plugin names,
    which [Object.keys] moves to the front) and any platform string, a name
    is available exactly when it is a key of the table's [plugins] and is
    not 'touchbar' on win32 or linux nor 'taskbar-mediacontrol' on darwin or
    linux; no key is listed twice when the table has none twice. *)
Theorem available_plugin_names_membership
    (platform : Is.Platform) (table : Defaults.DefaultConfig) :
  (∀ name,
     name ∈ getAvailablePluginNames platform table
     ↔ name ∈ (Defaults.plugins table).*1
       ∧ ¬ (name = "touchbar"
            ∧ (platform = "win32" ∨ platform = "linux"))
       ∧ ¬ (name = "taskbar-mediacontrol"
            ∧ (platform = "darwin" ∨ platform = "linux")))
  ∧ (NoDup (Defaults.plugins table).*1 →
     NoDup (getAvailablePluginNames platform table)).
Proof.
  unfold getAvailablePluginNames. split.
  - intros name. rewrite list_elem_of_In, filter_In, <- list_elem_of_In.
    rewrite (object_keys_perm (Defaults.plugins table)).
    rewrite name_filter_reserved. unfold Is.windows, Is.macOS, Is.linux.
    destruct (String.eqb_spec name "touchbar"),
      (String.eqb_spec name "taskbar-mediacontrol"),
      (String.eqb_spec platform "win32"),
      (String.eqb_spec platform "darwin"),
      (String.eqb_spec platform "linux"); cbn; subst; try discriminate;
      intuition congruence.
  - intros Hnd. apply NoDup_ListNoDup, List.NoDup_filter, NoDup_ListNoDup.
    by rewrite (object_keys_perm (Defaults.plugins table)).
Qed.

(** X6.  On a platform that is neither win32, darwin nor linux nothing is
    reserved: every key of the table is available, in the order of
    [Object.keys]. *)
Theorem other_platforms_keep_every_plugin
    (platform : Is.Platform) (table : Defaults.DefaultConfig) :
  platform ∉ ["win32"; "darwin"; "linux"] →
  getAvailablePluginNames platform table
  = object_keys (Defaults.plugins table).
Proof.
  rewrite !not_elem_of_cons. intros (Hw & Hm & Hl & _).
  unfold getAvailablePluginNames.
  rewrite (List.filter_ext _ (λ _, true)); [apply filter_true|].
  intros name. unfold name_filter, Is.windows, Is.macOS, Is.linux.
  apply String.eqb_neq in Hw as ->. apply String.eqb_neq in Hm as ->.
  by apply String.eqb_neq in Hl as ->.
Qed.

Lemma other_platforms_keep_every_plugin_witness :
  getAvailablePluginNames "freebsd" Samples.table_with_reserved
  = object_keys (Defaults.plugins Samples.table_with_reserved).
Proof.
  apply other_platforms_keep_every_plugin.
  rewrite !not_elem_of_cons. split_and!; try discriminate.
  apply not_elem_of_nil.
Defined.

(** ** Plugins submenu: one labelled entry per plugin *)

Lemma label_plugin_entry env st plugin :
  label (plugin_entry env st plugin) = Some (pluginLabel plugin).
Proof.
  unfold plugin_entry, pluginEnabledMenu.
  destruct (menu_module env plugin) as [getPluginMenu|];
    [destruct (negb _)|]; cbn [label checkbox_item submenu_item];
    by rewrite ?pluginLabel_or_plugin.
Qed.

(** X7.  Whatever the shapes of the entries, the Plugins submenu lists the
    plugins one entry each, in the order of the plugin list, every entry
    under its plugin's label, and no entry is a role item or a
    separator. *)
Theorem plugins_menu_labels (env : Env) (st : Config.Store) :
  label <$> children (plugins_menu env st)
  = (λ plugin, Some (pluginLabel plugin)) <$> all_plugins env
  ∧ Forall (λ entry, role entry = None ∧ type entry ≠ Some Separator)
           (children (plugins_menu env st)).
Proof.
  change (children (plugins_menu env st))
    with (plugin_entry env st <$> all_plugins env).
  split.
  - rewrite <- list_fmap_compose. apply list_fmap_ext.
    intros _ plugin _. apply label_plugin_entry.
  - apply Forall_fmap, Forall_forall. intros plugin _. cbn.
    unfold plugin_entry, pluginEnabledMenu.
    destruct (menu_module env plugin); [destruct (negb _)|]; by cbn.
Qed.

(** ** Radio groups: the clicked item is the one shown checked *)

Lemma tray_flags st t v :
  Config.get "options.tray" st = JsBool t →
  Config.get "options.appVisible" st = JsBool v →
  checked_flags (tray_radio_group st) = [negb t; t && v; t && negb v].
Proof.
  intros Ht Hv.
  unfold checked_flags, tray_radio_group, tray_disabled,
    tray_enabled_visible, tray_enabled_hidden, radio_item, is_checked.
  cbn [fmap list_fmap checked]. rewrite Ht, Hv. by destruct t, v.
Qed.

Lemma config_after_SetTray env t v reply c w :
  let st' := config (run_click env (SetTray t v) reply c w).2 in
  Config.get "options.tray" st' = JsBool t
  ∧ Config.get "options.appVisible" st' = JsBool v.
Proof.
  cbn. unfold Config.setMenuOption. split.
  - rewrite get_set_ne by done. apply get_set_eq.
  - apply get_set_eq.
Qed.

(** X8.  Clicking one of the three tray radio items and rebuilding the
    menu shows that item, and only it, checked. *)
Theorem tray_click_then_rebuild
    (env : Env) (reply : JsVal) (c : bool) (w : World)
    (k : nat) (item : MenuItem) (h : Handler) :
  tray_radio_group (config w) !! k = Some item →
  click item = Some h →
  checked_flags (tray_radio_group (config (run_click env h reply c w).2))
  = one_hot 3 k.
Proof.
  intros Hk Hh.
  destruct k as [|[|[|k]]]; cbn in Hk; [| | |done];
    injection Hk as <-; cbn in Hh; injection Hh as <-;
    match goal with
    | |- context [SetTray ?t ?v] =>
        destruct (config_after_SetTray env t v reply c w) as [Ht Hv]
    end;
    by rewrite (tray_flags _ _ _ Ht Hv).
Qed.

Lemma tray_click_then_rebuild_witness :
  checked_flags
    (tray_radio_group
       (config (run_click Samples.linux_env (SetTray true false)
                  JsUndefined true Samples.initial_world).2))
  = [false; false; true].
Proof.
  apply (tray_click_then_rebuild Samples.linux_env JsUndefined true
           Samples.initial_world 2 (tray_enabled_hidden Config.fresh));
    reflexivity.
Defined.

Lemma like_buttons_group env st :
  items_at ["Options"; "Visual Tweaks"; "Like buttons"]
           (mainMenuTemplate env st)
  = [ radio_item "Default"
        (js_not (Config.get "options.likeButtons" st))
        (SetOption "options.likeButtons" (JsStr ""));
      radio_item "Force show"
        (JsBool (strict_eq (Config.get "options.likeButtons" st)
                           (JsStr "force")))
        (SetOption "options.likeButtons" (JsStr "force"));
      radio_item "Hide"
        (JsBool (strict_eq (Config.get "options.likeButtons" st)
                           (JsStr "hide")))
        (SetOption "options.likeButtons" (JsStr "hide")) ].
Proof. reflexivity. Qed.

Lemma like_buttons_flags env st v :
  Config.get "options.likeButtons" st = v →
  checked_flags (items_at ["Options"; "Visual Tweaks"; "Like buttons"]
                          (mainMenuTemplate env st))
  = [ negb (truthy v); strict_eq v (JsStr "force");
      strict_eq v (JsStr "hide") ].
Proof.
  intros Hv. rewrite like_buttons_group.
  unfold checked_flags, radio_item, is_checked, js_not.
  cbn [fmap list_fmap checked]. rewrite Hv.
  by destruct (negb (truthy v)), (strict_eq v (JsStr "force")),
    (strict_eq v (JsStr "hide")).
Qed.

(** X9.  The Like buttons radio group.  Clicking one of its three items
    and rebuilding the menu shows that item, and only it, checked.  While
    the option is not set the first item ('Default') is the one checked; a
    stored string other than '', 'force' and 'hide' leaves all three
    unchecked. *)
Theorem like_buttons_click_then_rebuild (env : Env) :
  let group st := items_at ["Options"; "Visual Tweaks"; "Like buttons"]
                           (mainMenuTemplate env st) in
  (∀ reply c w k item h,
     group (config w) !! k = Some item →
     click item = Some h →
     checked_flags (group (config (run_click env h reply c w).2))
     = one_hot 3 k)
  ∧ (∀ st, Config.get "options.likeButtons" st = JsUndefined →
           checked_flags (group st) = [true; false; false])
  ∧ (∀ st s, Config.get "options.likeButtons" st = JsStr s →
             s ∉ [""; "force"; "hide"] →
             checked_flags (group st) = [false; false; false]).
Proof.
  cbn zeta. split_and!.
  - intros reply c w k item h Hk Hh. rewrite like_buttons_group in Hk.
    destruct k as [|[|[|k]]]; cbn in Hk; [| | |done];
      injection Hk as <-; cbn in Hh; injection Hh as <-;
      erewrite like_buttons_flags by (cbn; apply get_set_eq); reflexivity.
  - intros st Hv. by rewrite (like_buttons_flags _ _ _ Hv).
  - intros st s Hv Hs. rewrite (like_buttons_flags _ _ _ Hv).
    rewrite !not_elem_of_cons in Hs. destruct Hs as (H0 & H1 & H2 & _).
    cbn. apply String.eqb_neq in H0 as ->. apply String.eqb_neq in H1 as ->.
    by apply String.eqb_neq in H2 as ->.
Qed.

Lemma theme_group env st :
  items_at ["Options"; "Visual Tweaks"; "Theme"] (mainMenuTemplate env st)
  = [ radio_item "No theme"
        (js_not (Config.get "options.themes" st))
        (SetOption "options.themes" (JsStrArray []));
      separator_item;
      radio_item "Import custom CSS file" (JsBool false) ImportCustomCss ].
Proof. reflexivity. Qed.

Lemma theme_flags env st :
  checked_flags (items_at ["Options"; "Visual Tweaks"; "Theme"]
                          (mainMenuTemplate env st))
  = [negb (truthy (Config.get "options.themes" st)); false; false].
Proof.
  rewrite theme_group. unfold checked_flags, radio_item, is_checked, js_not.
  cbn [fmap list_fmap checked separator_item].
  by destruct (negb (truthy (Config.get "options.themes" st))).
Qed.

(** X10.  The Theme submenu.  'No theme' is built checked exactly while
    [options.themes] is falsy, and 'Import custom CSS file' is never built
    checked.  The handler of 'No theme' stores an empty array, which is
    truthy, and the import handler stores the array of chosen files: after
    either, the rebuilt submenu has no item checked. *)
Theorem theme_click_then_rebuild (env : Env) :
  let group st := items_at ["Options"; "Visual Tweaks"; "Theme"]
                           (mainMenuTemplate env st) in
  (∀ st, checked_flags (group st)
         = [negb (truthy (Config.get "options.themes" st)); false; false])
  ∧ (∀ reply c w item h,
       group (config w) !! 0 = Some item →
       click item = Some h →
       checked_flags (group (config (run_click env h reply c w).2))
       = [false; false; false])
  ∧ (∀ filePaths c w item h,
       group (config w) !! 2 = Some item →
       click item = Some h →
       checked_flags
         (group (config (run_click env h (JsStrArray filePaths) c w).2))
       = [false; false; false]).
Proof.
  cbn zeta. split_and!.
  - apply theme_flags.
  - intros reply c w item h Hk Hh. rewrite theme_group in Hk.
    injection Hk as <-. injection Hh as <-.
    rewrite theme_flags. cbn. by rewrite get_set_eq.
  - intros filePaths c w item h Hk Hh. rewrite theme_group in Hk.
    injection Hk as <-. injection Hh as <-.
    rewrite theme_flags. cbn. by rewrite get_set_eq.
Qed.

Lemma starting_page_group env st :
  items_at ["Options"; "Starting page"] (mainMenuTemplate env st)
  = (λ name,
       radio_item name
         (JsBool (strict_eq (Config.get "options.startingPage" st)
                            (JsStr name)))
         (SetOption "options.startingPage" (JsStr name)))
    <$> starting_pages env.
Proof. reflexivity. Qed.

Lemma starting_page_flags env st :
  checked_flags (items_at ["Options"; "Starting page"]
                          (mainMenuTemplate env st))
  = (λ name, strict_eq (Config.get "options.startingPage" st) (JsStr name))
    <$> starting_pages env.
Proof.
  rewrite starting_page_group. unfold checked_flags.
  rewrite <- list_fmap_compose. apply list_fmap_ext. intros _ name _.
  cbn. by destruct (strict_eq _ _).
Qed.

Lemma one_hot_names (names : list string) k name :
  NoDup names →
  names !! k = Some name →
  String.eqb name <$> names = one_hot (length names) k.
Proof.
  intros Hnd Hk. unfold one_hot. apply list_eq. intros i.
  rewrite !list_lookup_fmap.
  destruct (names !! i) as [n|] eqn:Hi.
  - rewrite lookup_seq_lt by (by eapply lookup_lt_Some). cbn. f_equal.
    destruct (Nat.eqb_spec i k) as [->|Hne].
    + apply String.eqb_eq. congruence.
    + apply String.eqb_neq. intros ->. apply Hne.
      by eapply NoDup_lookup.
  - rewrite lookup_seq_ge; [done|]. by apply lookup_ge_None.
Qed.

Lemma no_page_flags (names : list string) (v : JsVal) :
  (∀ name, name ∈ names → v ≠ JsStr name) →
  (λ name, strict_eq v (JsStr name)) <$> names
  = replicate (length names) false.
Proof.
  induction names as [|name names IH]; intros Hnone; [done|].
  cbn. f_equal.
  - pose proof (Hnone name ltac:(by left)) as Hne.
    destruct v; try done. cbn. apply String.eqb_neq. congruence.
  - apply IH. intros n Hn. apply Hnone. by right.
Qed.

(** X11.  The Starting page radio group has one item per starting page,
    in order.  The page names being distinct, clicking an item and
    rebuilding the menu shows that item, and only it, checked; while the
    stored option names none of the pages (as when it was never set), no
    item is checked. *)
Theorem starting_page_click_then_rebuild (env : Env) :
  NoDup (starting_pages env) →
  let group st := items_at ["Options"; "Starting page"]
                           (mainMenuTemplate env st) in
  (∀ st, label <$> group st = Some <$> starting_pages env)
  ∧ (∀ reply c w k item h,
       group (config w) !! k = Some item →
       click item = Some h →
       checked_flags (group (config (run_click env h reply c w).2))
       = one_hot (length (starting_pages env)) k)
  ∧ (∀ st, (∀ name, name ∈ starting_pages env →
                    Config.get "options.startingPage" st ≠ JsStr name) →
           checked_flags (group st)
           = replicate (length (starting_pages env)) false).
Proof.
  intros Hnd. cbn zeta. split_and!.
  - intros st. rewrite starting_page_group, <- list_fmap_compose.
    by apply list_fmap_ext.
  - intros reply c w k item h Hk Hh. rewrite starting_page_group in Hk.
    rewrite list_lookup_fmap in Hk.
    destruct (starting_pages env !! k) as [name|] eqn:Hname; [|done].
    injection Hk as <-. injection Hh as <-.
    rewrite starting_page_flags. cbn. rewrite get_set_eq.
    by apply one_hot_names.
  - intros st Hnone. rewrite starting_page_flags. by apply no_page_flags.
Qed.

Lemma starting_page_click_then_rebuild_witness :
  checked_flags
    (items_at ["Options"; "Starting page"]
       (mainMenuTemplate Samples.linux_env Config.fresh))
  = [false; false; false].
Proof.
  pose proof (starting_page_click_then_rebuild Samples.linux_env) as H.
  destruct H as (_ & _ & Hnone).
  - repeat constructor; rewrite ?not_elem_of_cons; split_and?;
      try discriminate; apply not_elem_of_nil.
  - apply Hnone. intros name _. discriminate.
Defined.

(** ** Checkboxes: a click is what the rebuilt menu shows *)

(** The checkboxes of the Options menu that store their own state (all
    but 'Single instance lock' and 'Proxy'), by path of labels; two of them
    exist on some platforms only.  Each is a checkbox built from the very
    option its handler writes. *)
Lemma find_option_checkbox env path :
  path ∈ [ ["Options"; "Auto-update"];
           ["Options"; "Resume last song when app starts"];
           ["Options"; "Visual Tweaks"; "Remove upgrade button"];
           ["Options"; "Always on top"];
           ["Options"; "Tray"; "Play/Pause on click"];
           ["Options"; "Advanced options"; "Override useragent"];
           ["Options"; "Advanced options"; "Disable hardware acceleration"];
           ["Options"; "Advanced options"; "Restart on config changes"];
           ["Options"; "Advanced options";
            "Reset App cache when app starts"] ]
         ++ (if Is.windows (platform env) || Is.linux (platform env)
             then [["Options"; "Hide menu"]] else [])
         ++ (if Is.windows (platform env) || Is.macOS (platform env)
             then [["Options"; "Start at login"]] else []) →
  ∃ option_path h,
    (∀ st, find_item path (mainMenuTemplate env st)
           = Some (checkbox_item (default "" (last path))
                     (Config.get option_path st) h))
    ∧ ∀ reply c w,
        Config.get option_path (config (run_click env h reply c w).2)
        = JsBool c
        ∧ (run_click env h reply c w).1 = c.
Proof.
  intros Hin.
  assert (∀ p reply c w,
            Config.get p
              (config (run_click env (SetMenuOptionToChecked p) reply c w).2)
            = JsBool c
            ∧ (run_click env (SetMenuOptionToChecked p) reply c w).1 = c)
    as Hset.
  { intros p reply c w. cbn. unfold Config.setMenuOption.
    by rewrite get_set_eq. }
  assert (∀ reply c w,
            Config.get "options.hideMenu"
              (config (run_click env HideMenu reply c w).2) = JsBool c
            ∧ (run_click env HideMenu reply c w).1 = c) as Hhide.
  { intros reply c w. cbn. unfold Config.setMenuOption.
    destruct (c && _); cbn; by rewrite get_set_eq. }
  unfold mainMenuTemplate, options_menu, hide_menu_items,
    start_at_login_items.
  destruct (Is.windows (platform env) || Is.linux (platform env)),
    (Is.windows (platform env) || Is.macOS (platform env));
    cbn [app] in Hin;
    repeat (apply elem_of_cons in Hin as [->|Hin]);
    try (by apply elem_of_nil in Hin);
    try (eexists _, _; split; [intros st; reflexivity | apply Hset]);
    try (eexists _, _; split; [intros st; reflexivity | apply Hhide]);
    (eexists _, _; split; [intros st; reflexivity|]; intros reply c w; cbn;
     unfold Config.setMenuOption; by rewrite get_set_eq).
Qed.

(** X12.  Every checkbox of the Options menu that stores its own state
    shows the option its handler writes: clicking it (the host flips the
    box, the handler stores the new state) and rebuilding the menu shows the
    box in the flipped state.  'Hide menu' and 'Start at login' are among
    them on the platforms that have them. *)
Theorem checkbox_click_then_rebuild
    (env : Env) (reply : JsVal) (pre : bool) (w : World)
    (path : list string) :
  path ∈ [ ["Options"; "Auto-update"];
           ["Options"; "Resume last song when app starts"];
           ["Options"; "Visual Tweaks"; "Remove upgrade button"];
           ["Options"; "Always on top"];
           ["Options"; "Tray"; "Play/Pause on click"];
           ["Options"; "Advanced options"; "Override useragent"];
           ["Options"; "Advanced options"; "Disable hardware acceleration"];
           ["Options"; "Advanced options"; "Restart on config changes"];
           ["Options"; "Advanced options";
            "Reset App cache when app starts"] ]
         ++ (if Is.windows (platform env) || Is.linux (platform env)
             then [["Options"; "Hide menu"]] else [])
         ++ (if Is.windows (platform env) || Is.macOS (platform env)
             then [["Options"; "Start at login"]] else []) →
  ∃ item h,
    find_item path (mainMenuTemplate env (config w)) = Some item
    ∧ type item = Some Checkbox
    ∧ click item = Some h
    ∧ let after := click_checkbox env h reply pre w in
      after.1 = negb pre
      ∧ ∃ item',
          find_item path (mainMenuTemplate env (config after.2)) = Some item'
          ∧ checked item' = Some (JsBool (negb pre)).
Proof.
  intros Hin.
  destruct (find_option_checkbox env path Hin)
    as (option_path & h & Hfind & Hclick).
  eexists _, h. split; [apply Hfind|]. split; [done|]. split; [done|].
  cbn zeta. unfold click_checkbox.
  destruct (Hclick reply (negb pre) w) as [Hget Hchecked].
  split; [done|]. eexists. split; [apply Hfind|].
  cbn [checked checkbox_item]. by rewrite Hget.
Qed.

Lemma checkbox_click_then_rebuild_witness :
  ∃ item h,
    find_item ["Options"; "Hide menu"]
      (mainMenuTemplate Samples.linux_env Config.fresh) = Some item
    ∧ type item = Some Checkbox
    ∧ click item = Some h
    ∧ let after := click_checkbox Samples.linux_env h JsUndefined false
                     Samples.initial_world in
      after.1 = true
      ∧ ∃ item',
          find_item ["Options"; "Hide menu"]
            (mainMenuTemplate Samples.linux_env (config after.2))
          = Some item'
          ∧ checked item' = Some (JsBool true).
Proof.
  apply (checkbox_click_then_rebuild Samples.linux_env JsUndefined false
           Samples.initial_world ["Options"; "Hide menu"]).
  cbn. rewrite !elem_of_cons. tauto.
Defined.

(** X13.  When the proxy prompt is submitted, the state the handler gives
    the Proxy checkbox is the state the rebuilt menu shows for it: checked
    exactly when the stored address is not empty. *)
Theorem proxy_checkbox_matches_store
    (env : Env) (address : string) (pre : bool) (w : World) :
  let after := click_checkbox env SetProxy (JsStr address) pre w in
  ∃ item,
    find_item ["Options"; "Advanced options"; "Proxy"]
      (mainMenuTemplate env (config after.2)) = Some item
    ∧ checked item = Some (JsBool after.1)
    ∧ after.1 = negb (address =? "").
Proof.
  cbn zeta.
  eexists. split.
  - unfold mainMenuTemplate, options_menu, hide_menu_items,
      start_at_login_items.
    destruct (Is.windows (platform env) || Is.linux (platform env)),
      (Is.windows (platform env) || Is.macOS (platform env)); reflexivity.
  - cbn [checked checkbox_item]. unfold click_checkbox. cbn [run_click].
    unfold setProxy. cbn. unfold Config.setMenuOption. rewrite get_set_eq.
    unfold js_not. cbn. split; [|done]. by rewrite negb_involutive.
Qed.

(** X14.  The 'Hide menu' handler stores the new state and opens the
    information dialog exactly when the box was just checked and
    [options.hideMenuWarned] is falsy; it never writes
    [options.hideMenuWarned], so unchecking never opens the dialog and every
    later checking opens it again. *)
Theorem hide_menu_dialog
    (env : Env) (reply : JsVal) (c : bool) (w : World) :
  let w' := (run_click env HideMenu reply c w).2 in
  Config.get "options.hideMenu" (config w') = JsBool c
  ∧ Config.get "options.hideMenuWarned" (config w')
    = Config.get "options.hideMenuWarned" (config w)
  ∧ host_calls w'
    = host_calls w
      ++ (if c && negb (truthy (Config.get "options.hideMenuWarned"
                                  (config w)))
          then ["dialog.showMessageBox"] else [])
  ∧ ∀ reply2,
      let w'' := (run_click env HideMenu reply2 c w').2 in
      host_calls w''
      = host_calls w'
        ++ (if c && negb (truthy (Config.get "options.hideMenuWarned"
                                    (config w)))
            then ["dialog.showMessageBox"] else []).
Proof.
  cbn zeta.
  assert (∀ reply c w,
            let w' := (run_click env HideMenu reply c w).2 in
            Config.get "options.hideMenu" (config w') = JsBool c
            ∧ Config.get "options.hideMenuWarned" (config w')
              = Config.get "options.hideMenuWarned" (config w)
            ∧ host_calls w'
              = host_calls w
                ++ (if c && negb (truthy (Config.get "options.hideMenuWarned"
                                            (config w)))
                    then ["dialog.showMessageBox"] else [])) as Hone.
  { clear. intros reply c w. cbn. unfold Config.setMenuOption.
    rewrite (get_set_ne _ "options.hideMenu" "options.hideMenuWarned")
      by done.
    destruct (c && _); cbn;
      rewrite get_set_eq, ?get_set_ne, ?app_nil_r by done; done. }
  destruct (Hone reply c w) as (H1 & H2 & H3). split_and!; try done.
  intros reply2. destruct (Hone reply2 c (run_click env HideMenu reply c w).2)
    as (_ & _ & H3'). by rewrite H3', H2.
Qed.

(** ** CSS injection: one task per stylesheet *)

(** X15.  Counted from the loading of the module, a load-completion event
    never starts two tasks for one pending stylesheet, whatever was
    registered, how often and for which targets: the sources of the tasks
    of one event are pairwise distinct. *)
Theorem no_stylesheet_injected_twice
    (fs : FileSystem) (target : WebContents) (rs : list Registration) :
  NoDup (task_source <$> did_finish_load fs target (register_all rs initial)).
Proof.
  destruct rs as [|r rs].
  { cbn. constructor. }
  pose proof (listeners_register_all_initial (r :: rs)) as Hl.
  destruct (decide (target = reg_target r)) as [->|Hne].
  - rewrite did_finish_load_single by exact Hl.
    unfold on_did_finish_load.
    rewrite fmap_app, task_source_inject_inline, task_source_inject_file.
    destruct (register_all_NoDup (r :: rs)) as [Hnd Hndf].
    apply NoDup_app. split_and!.
    + apply NoDup_fmap; [by intros ?? [= ->] | done].
    + intros src (css & -> & _)%list_elem_of_fmap
               (filepath & Heq & _)%list_elem_of_fmap.
      discriminate Heq.
    + apply NoDup_fmap; [by intros ?? [= ->] | done].
  - rewrite (did_finish_load_other _ _ _ _ Hl Hne). constructor.
Qed.

(* ===================================================================== *)
(** * CSS injection: which load events apply a stylesheet *)
(* ===================================================================== *)

Lemma listeners_of_history rs first :
  head rs = Some first →
  listeners (register_all rs initial) = [reg_target first].
Proof.
  intros Hhead. rewrite listeners_register_all_initial.
  destruct rs; [done|]. by injection Hhead as ->.
Qed.

(** In a state whose maps hold no key twice, the listener body starts
    exactly one task for a pending stylesheet, with the stored callback. *)
Lemma tasks_of_source fs target s src cb :
  NoDup (map_keys (cssToInject s)) →
  NoDup (map_keys (cssToInjectFile s)) →
  pending_callback src s = Some cb →
  filter (λ t, task_source t = src) (on_did_finish_load fs target s)
  = [start_task fs target src cb].
Proof.
  intros Hnd Hndf Hcb. unfold on_did_finish_load, pending_callback in *.
  rewrite filter_app. destruct src as [css|filepath]; cbn [start_task].
  - rewrite filter_inline_tasks, filter_inline_tasks_of_files, app_nil_r.
    rewrite filter_key_NoDup by done. rewrite Hcb. reflexivity.
  - rewrite filter_file_tasks, filter_file_tasks_of_inline.
    rewrite filter_key_NoDup by done. rewrite Hcb. reflexivity.
Qed.


Example two_stylesheets_other_target_first :
  insert_css_calls
    (run Samples.one_stylesheet
       [ Register (RegInline 2 "z{}" None);
         Register (RegInline 1 "a{}" None);
         Register (RegInline 1 "b{}" None);
         DidFinishLoad 1; DidFinishLoad 1 ] initial).2
  = [].
Proof. reflexivity. Qed.

Example two_stylesheets_unreadable_file :
  insert_css_calls
    (run Samples.one_stylesheet
       [ Register (RegInline 1 "a{}" None);
         Register (RegFile 1 "missing.css" None);
         DidFinishLoad 1; DidFinishLoad 1 ] initial).2
  = [(1, "a{}"); (1, "a{}")].
Proof. reflexivity. Qed.



Example two_stylesheets_after_earlier_ones :
  insert_css_calls
    (run Samples.one_stylesheet
       [ Register (RegFile 1 "a.css" None);
         Register (RegInline 1 "a{}" None);
         Register (RegInline 1 "b{}" None);
         DidFinishLoad 1 ] initial).2
  = [(1, "a{}"); (1, "b{}"); (1, "a{}")].
Proof. reflexivity. Qed.

(** C10, as claimed, fails in its last part: after a stylesheet is
    registered again, a load-completion event on the target of that second
    registration applies it not once but never, when the first registration
    named another target. *)
Lemma re_registration_counterexample :
  ¬ (∀ fs rs r,
       reg_source r ∈ (reg_source <$> rs) →
       let s' := register r (register_all rs initial) in
       length (filter (λ t, task_source t = reg_source r)
                      (did_finish_load fs (reg_target r) s')) = 1).
Proof.
  intros Hclaim.
  specialize (Hclaim Samples.one_stylesheet [RegInline 1 "a{}" (Some 1)]
                (RegInline 2 "a{}" (Some 2))).
  cbn in Hclaim. discriminate Hclaim. by left.
Qed.

Example re_registration_unreadable_file :
  did_finish_load Samples.one_stylesheet 1
    (register_all
       [ RegFile 1 "missing.css" (Some 1); RegFile 1 "missing.css" (Some 2) ]
       initial)
  = [ReadFailed 1 (FromFile "missing.css")].
Proof. reflexivity. Qed.

(** C10, amended.  Registering again a stylesheet that is already pending
    (the same inline text, or the same file path) adds no entry: the keys of
    both maps stay as they are and the entry's stored callback is now the
    one of the later call.  There is then exactly one listener, on the
    target of the first registration since the module was loaded.  Each
    load-completion event on that target starts exactly one task for the
    stylesheet: one [insertCSS] call when the stylesheet is inline or its
    file can be read (none when the file cannot be read), and the only
    callback the task can invoke is the one registered last.  A
    load-completion event on any other target, the target of the later
    registration included, starts no task for it. *)
Theorem re_registration_replaces_callback
    (fs : FileSystem) (rs : list Registration) (r : Registration) :
  reg_source r ∈ (reg_source <$> rs) →
  let s := register_all rs initial in
  let s' := register r s in
  map_keys (cssToInject s') = map_keys (cssToInject s)
  ∧ map_keys (cssToInjectFile s') = map_keys (cssToInjectFile s)
  ∧ pending_callback (reg_source r) s' = Some (reg_callback r)
  ∧ ∃ first,
      head rs = Some first
      ∧ listeners s' = [reg_target first]
      ∧ ∀ target,
          let tasks := filter (λ t, task_source t = reg_source r)
                              (did_finish_load fs target s') in
          tasks
          = (if bool_decide (target = reg_target first)
             then [start_task fs target (reg_source r) (reg_callback r)]
             else [])
          ∧ insert_css_calls tasks
            = (if bool_decide (target = reg_target first)
               then match reg_source r with
                    | Inline css => [(target, css)]
                    | FromFile filepath =>
                        match read fs filepath with
                        | Some text => [(target, text)]
                        | None => []
                        end
                    end
               else [])
          ∧ ∀ cb, cb ∈ completion_callbacks tasks → reg_callback r = Some cb.
Proof.
  intros Hin s s'.
  assert (s' = register_all (rs ++ [r]) initial) as Hs'
    by (subst s' s; by rewrite register_all_snoc).
  assert (∃ first, head rs = Some first) as [first Hfirst].
  { destruct rs; [by apply elem_of_nil in Hin | eauto]. }
  assert (head (rs ++ [r]) = Some first) as Hhead
    by (clear -Hfirst; by destruct rs).
  assert (listeners s' = [reg_target first]) as Hl
    by (rewrite Hs'; by apply listeners_of_history).
  assert (pending_callback (reg_source r) s' = Some (reg_callback r)) as Hcb.
  { rewrite Hs'. apply (pending_callback_last rs [] r initial).
    apply not_elem_of_nil. }
  split_and!.
  - subst s'. rewrite cssToInject_register.
    destruct r as [wc css cb|]; [|done]. rewrite map_keys_set.
    rewrite bool_decide_eq_true_2; [done|]. subst s.
    rewrite cssToInject_register_all. apply foldl_set_key. right.
    by apply inline_registered.
  - subst s'. rewrite cssToInjectFile_register.
    destruct r as [|wc filepath cb]; [done|]. rewrite map_keys_set.
    rewrite bool_decide_eq_true_2; [done|]. subst s.
    rewrite cssToInjectFile_register_all. apply foldl_set_key. right.
    by apply file_registered.
  - done.
  - exists first. split; [done|]. split; [done|].
    intros target tasks. subst tasks.
    case_bool_decide as Ht.
    + subst target. rewrite did_finish_load_single by done.
      destruct (register_all_NoDup (rs ++ [r])) as [Hnd Hndf].
      rewrite <- Hs' in Hnd, Hndf.
      rewrite (tasks_of_source fs _ s' _ _ Hnd Hndf Hcb).
      destruct (reg_source r) as [css|filepath]; cbn.
      * split; [done|]. split; [done|].
        destruct (reg_callback r) as [c|]; cbn.
        -- by intros cb ->%list_elem_of_singleton.
        -- by intros cb ?%elem_of_nil.
      * split; [done|].
        destruct (read fs filepath) as [text|]; cbn.
        -- split; [done|]. destruct (reg_callback r) as [c|]; cbn.
           ++ by intros cb ->%list_elem_of_singleton.
           ++ by intros cb ?%elem_of_nil.
        -- split; [done|]. by intros cb ?%elem_of_nil.
    + rewrite (did_finish_load_other _ _ _ _ Hl Ht). cbn.
      split; [done|]. split; [done|]. by intros cb ?%elem_of_nil.
Qed.

Lemma re_registration_replaces_callback_witness :
  let s' := register (RegInline 2 "a{}" (Some 2))
              (register_all [RegInline 1 "a{}" (Some 1)] initial) in
  filter (λ t, task_source t = Inline "a{}")
         (did_finish_load Samples.one_stylesheet 1 s')
  = [Applied 1 (Inline "a{}") "a{}" (Some 2)]
  ∧ filter (λ t, task_source t = Inline "a{}")
           (did_finish_load Samples.one_stylesheet 2 s')
    = [].
Proof.
  intros s'.
  pose proof (re_registration_replaces_callback Samples.one_stylesheet
                [RegInline 1 "a{}" (Some 1)] (RegInline 2 "a{}" (Some 2)))
    as H.
  destruct H as (_ & _ & _ & first & Hfirst & _ & Hload); [by left|].
  injection Hfirst as <-.
  split; [apply (Hload 1) | apply (Hload 2)].
Defined.
